(** * indoxJudge: the evaluation orchestrator ([Evaluator])

    A shallow embedding of [src/indoxJudge/indoxJudge.py] and the properties
    of its construction-time model binder and of its [evaluate] loop.

    The metric classes ([Faithfulness], [BLEU], ...) live in the [.metrics]
    package, outside the orchestrator: a metric is an object of some class
    with a method table and an attribute dictionary, and every theorem below
    quantifies over all such classes.  The orchestrator itself is transcribed
    statement by statement in a state-and-exception monad. *)

From Stdlib Require Import ZArith QArith Qminmax Lqa String List Bool Lia.
From stdpp Require Import base option gmap strings list fin_maps.

Set Warnings "-register-all".

Local Open Scope string_scope.
Local Open Scope list_scope.

(** ** Python values *)

(** The values the orchestrator handles.  [VObj c fs] is an instance of a
    data class named [c] (the pydantic models the metrics return, the model
    handle) with fields [fs].  Python floats are carried as exact rationals:
    the only float arithmetic in the file is [1.0 - k / n] on two lengths. *)
Inductive PyVal : Type :=
| VNone
| VBool (b : bool)
| VInt (z : Z)
| VFloat (q : Q)
| VStr (s : string)
| VList (l : list PyVal)
| VDict (d : list (string * PyVal))
| VObj (cls : string) (fields : list (string * PyVal)).

Definition Attrs : Type := list (string * PyVal).

Fixpoint assoc (k : string) (d : Attrs) : option PyVal :=
  match d with
  | [] => None
  | (k', v) :: d' => if String.eqb k k' then Some v else assoc k d'
  end.

Definition type_name (v : PyVal) : string :=
  match v with
  | VNone => "NoneType"
  | VBool _ => "bool"
  | VInt _ => "int"
  | VFloat _ => "float"
  | VStr _ => "str"
  | VList _ => "list"
  | VDict _ => "dict"
  | VObj c _ => c
  end.

(** ** Exceptions *)

(** [exc_is_Exception] tells whether the exception's class derives from
    [Exception]; [KeyboardInterrupt], [SystemExit] and [GeneratorExit] derive
    from [BaseException] only.  [str(e)] calls the [__str__] of the
    exception's class, which is code like any other: when it returns, the
    text is [exc_str]; when it raises, [exc_str_raises] is the exception it
    raises. *)
Inductive PyExc : Type := BuildExc {
  exc_type : string;
  exc_str : string;
  exc_is_Exception : bool;
  exc_str_raises : option PyExc
}.

(** An exception with the [__str__] of [BaseException], which returns. *)
Definition mkExc (type text : string) (is_Exception : bool) : PyExc :=
  BuildExc type text is_Exception None.

(** An exception that the handler of [evaluate] (lines 161-162) catches and
    can report: an instance of [Exception] whose [__str__] returns. *)
Definition loggable (e : PyExc) : bool :=
  exc_is_Exception e &&
  match exc_str_raises e with None => true | Some _ => false end.

Definition AttributeError (msg : string) : PyExc := mkExc "AttributeError" msg true.
Definition TypeError (msg : string) : PyExc := mkExc "TypeError" msg true.
Definition ZeroDivisionError (msg : string) : PyExc := mkExc "ZeroDivisionError" msg true.

Inductive Res (A : Type) : Type :=
| Ok (a : A)
| Raise (e : PyExc).
Arguments Ok {A} a.
Arguments Raise {A} e.

Definition is_Ok {A} (r : Res A) : bool :=
  match r with Ok _ => true | Raise _ => false end.

(** ** Metric objects *)

(** The thirteen classes imported from [.metrics] (lines 4-16). *)
Inductive MetricClass : Type :=
| Faithfulness | AnswerRelevancy | Bias | ContextualRelevancy | GEval
| Hallucination | KnowledgeRetention | Toxicity | BertScore | BLEU
| Rouge | METEOR | Gruen.

(** A method receives its arguments and the attribute dictionary of [self];
    it returns or raises, and leaves a new attribute dictionary.  This is
    the limit of the model: a method is a function of these two, so what a
    real metric reads elsewhere (the language model behind it, another
    object) is not represented, and no property below is about it. *)
Definition Method : Type := list PyVal -> Attrs -> Res PyVal * Attrs.

(** A class: its [__name__], the imported metric classes it is an instance
    of (itself or by inheritance), and its methods. *)
Record PyClass : Type := mkClass {
  cls_name : string;
  cls_isa : MetricClass -> bool;
  cls_methods : string -> option Method
}.

(** A reference to a metric object: the identity of the object in the heap
    and its class.  The same object may occur several times in a list. *)
Record Metric : Type := mkMetric {
  m_id : nat;
  m_class : PyClass
}.

(** ** Observable events *)

Inductive Level : Type := INFO | ERROR.

(** [ECall o f args r]: method [f] of object [o] was called with [args] and
    returned or raised [r].  [ELog l msg]: a [logger] record. *)
Inductive Event : Type :=
| ECall (o : nat) (meth : string) (args : list PyVal) (r : Res PyVal)
| ELog (lvl : Level) (msg : string).

(** ** Program state and the monad *)

(** [heap]: the attribute dictionary of every metric object.  [results]: the
    dict that [evaluate] builds (line 64).  [trace]: what happened so far. *)
Record State : Type := mkState {
  heap : nat -> Attrs;
  results : gmap string PyVal;
  trace : list Event
}.

Definition M (A : Type) : Type := State -> Res A * State.

Definition ret {A} (a : A) : M A := fun st => (Ok a, st).

Definition raise {A} (e : PyExc) : M A := fun st => (Raise e, st).

Definition bind {A B} (c : M A) (k : A -> M B) : M B :=
  fun st =>
    match c st with
    | (Ok a, st') => k a st'
    | (Raise e, st') => (Raise e, st')
    end.

Notation "'let!' x ':=' c 'in' k" := (bind c (fun x => k))
  (at level 10, x pattern, c at level 100, k at level 200).
Notation "c ';;;' k" := (bind c (fun _ => k))
  (at level 100, k at level 200, right associativity).

Definition upd (h : nat -> Attrs) (o : nat) (a : Attrs) : nat -> Attrs :=
  fun o' => if Nat.eqb o' o then a else h o'.

Definition emit (e : Event) : M unit :=
  fun st => (Ok tt, mkState (heap st) (results st) (trace st ++ [e])).

(** [try: body  except Exception as e: handler e] *)
Definition try_except_Exception (body : M unit) (handler : PyExc -> M unit) : M unit :=
  fun st =>
    match body st with
    | (Ok u, st') => (Ok u, st')
    | (Raise e, st') =>
        if exc_is_Exception e then handler e st' else (Raise e, st')
    end.

(** [for x in l: body x] *)
Fixpoint for_each {A} (l : list A) (body : A -> M unit) : M unit :=
  match l with
  | [] => ret tt
  | x :: l' => body x ;;; for_each l' body
  end.

(** [[f x for x in l]] *)
Fixpoint comprehension (f : PyVal -> M PyVal) (l : list PyVal) : M (list PyVal) :=
  match l with
  | [] => ret []
  | x :: l' =>
      let! y := f x in
      let! ys := comprehension f l' in
      ret (y :: ys)
  end.

(** ** Primitive operations *)

Definition logger_info (msg : string) : M unit := emit (ELog INFO msg).
Definition logger_error (msg : string) : M unit := emit (ELog ERROR msg).

(** [hasattr(metric, name)] for a method name.  Methods belong to the
    class and data attributes to the object: the two name spaces are kept
    apart, so the probe looks in the class. *)
Definition hasattr (metric : Metric) (name : string) : bool :=
  match cls_methods (m_class metric) name with
  | Some _ => true
  | None => false
  end.

(** [metric.name] for a method name: the bound method, looked up before
    the arguments of the call are evaluated. *)
Definition method (metric : Metric) (name : string) : M Method :=
  fun st =>
    match cls_methods (m_class metric) name with
    | Some f => (Ok f, st)
    | None =>
        (Raise (AttributeError
           ("'" +:+ cls_name (m_class metric) +:+ "' object has no attribute '" +:+ name +:+ "'")),
         st)
    end.

(** The call itself: the method runs on the attributes of [self], which it
    may change, and the call is recorded with its outcome. *)
Definition invoke (metric : Metric) (name : string) (f : Method) (args : list PyVal) : M PyVal :=
  fun st =>
    let '(r, a') := f args (heap st (m_id metric)) in
    (r, mkState (upd (heap st) (m_id metric) a') (results st)
                (trace st ++ [ECall (m_id metric) name args r])).

(** [metric.name(args)] with arguments that are already values *)
Definition call (metric : Metric) (name : string) (args : list PyVal) : M PyVal :=
  let! f := method metric name in
  invoke metric name f args.

(** [metric.name], a data attribute of the metric object *)
Definition attr (metric : Metric) (name : string) : M PyVal :=
  fun st =>
    match assoc name (heap st (m_id metric)) with
    | Some v => (Ok v, st)
    | None =>
        (Raise (AttributeError
           ("'" +:+ cls_name (m_class metric) +:+ "' object has no attribute '" +:+ name +:+ "'")),
         st)
    end.

(** [v.name], a field of a returned object *)
Definition field (v : PyVal) (name : string) : M PyVal :=
  match v with
  | VObj c fs =>
      match assoc name fs with
      | Some x => ret x
      | None => raise (AttributeError ("'" +:+ c +:+ "' object has no attribute '" +:+ name +:+ "'"))
      end
  | _ => raise (AttributeError
                  ("'" +:+ type_name v +:+ "' object has no attribute '" +:+ name +:+ "'"))
  end.

(** [v.__dict__] *)
Definition dunder_dict (v : PyVal) : M PyVal :=
  match v with
  | VObj _ fs => ret (VDict fs)
  | _ => raise (AttributeError
                  ("'" +:+ type_name v +:+ "' object has no attribute '__dict__'"))
  end.

(** pydantic's [BaseModel.dict()]: the fields, nested models converted too. *)
Fixpoint model_dump (v : PyVal) : PyVal :=
  match v with
  | VObj _ fs =>
      VDict ((fix go (fs : list (string * PyVal)) : list (string * PyVal) :=
                match fs with
                | [] => []
                | (k, x) :: fs' => (k, model_dump x) :: go fs'
                end) fs)
  | VDict d =>
      VDict ((fix go (fs : list (string * PyVal)) : list (string * PyVal) :=
                match fs with
                | [] => []
                | (k, x) :: fs' => (k, model_dump x) :: go fs'
                end) d)
  | VList l =>
      VList ((fix go (l : list PyVal) : list PyVal :=
                match l with
                | [] => []
                | x :: l' => model_dump x :: go l'
                end) l)
  | _ => v
  end.

(** [v.dict()] *)
Definition dot_dict (v : PyVal) : M PyVal :=
  match v with
  | VObj _ _ => ret (model_dump v)
  | _ => raise (AttributeError
                  ("'" +:+ type_name v +:+ "' object has no attribute 'dict'"))
  end.

(** The characters of a [str], each a [str] of length one. *)
Fixpoint chars (s : string) : list PyVal :=
  match s with
  | EmptyString => []
  | String c s' => VStr (String c EmptyString) :: chars s'
  end.

(** The elements a [for] clause draws from [v]: the items of a list, the
    keys of a dict, the characters of a str; other values, objects
    included, are not iterable. *)
Definition iter (v : PyVal) : M (list PyVal) :=
  match v with
  | VList l => ret l
  | VDict d => ret (map (fun kv => VStr (fst kv)) d)
  | VStr s => ret (chars s)
  | _ => raise (TypeError ("'" +:+ type_name v +:+ "' object is not iterable"))
  end.

(** [not v] *)
Definition py_not (v : PyVal) : bool :=
  match v with
  | VNone => true
  | VBool b => negb b
  | VInt z => Z.eqb z 0
  | VFloat q => Qeq_bool q 0
  | VStr s => String.eqb s EmptyString
  | VList l => match l with [] => true | _ => false end
  | VDict d => match d with [] => true | _ => false end
  | VObj _ _ => false
  end.

(** [len(v)] *)
Definition py_len (v : PyVal) : M Z :=
  match v with
  | VStr s => ret (Z.of_nat (String.length s))
  | VList l => ret (Z.of_nat (length l))
  | VDict d => ret (Z.of_nat (length d))
  | _ => raise (TypeError ("object of type '" +:+ type_name v +:+ "' has no len()"))
  end.

(** [a / b] on two ints: a float, or [ZeroDivisionError]. *)
Definition py_truediv (a b : Z) : M Q :=
  if Z.eqb b 0 then raise (ZeroDivisionError "division by zero")
  else ret (Qred (inject_Z a / inject_Z b)).

(** [max(0, x)] for a float [x]: the first argument unless the second is
    strictly greater. *)
Definition py_max0 (x : Q) : PyVal :=
  if Qlt_le_dec 0 x then VFloat x else VInt 0.

(** [results[key] = v] *)
Definition store_result (key : string) (v : PyVal) : M unit :=
  fun st => (Ok tt, mkState (heap st) (<[key := v]> (results st)) (trace st)).

(** ** The orchestrator *)

Record Evaluator : Type := mkEvaluator {
  model : PyVal;
  metrics : list Metric
}.

(** [Evaluator.set_model_for_metrics] (lines 48-55) *)
Definition set_model_for_metrics (self : Evaluator) : M unit :=
  for_each (metrics self) (fun metric =>
    if hasattr metric "set_model" then
      call metric "set_model" [model self] ;;; ret tt
    else ret tt) ;;;
  logger_info "Model set for all metrics.".

(** [Evaluator.__init__] (lines 35-46) *)
Definition Evaluator_init (model : PyVal) (metrics : list Metric) : M Evaluator :=
  let self := mkEvaluator model metrics in
  logger_info "Evaluator initialized with model and metrics." ;;;
  set_model_for_metrics self ;;;
  ret self.

Definition isinstance (metric : Metric) (c : MetricClass) : bool :=
  cls_isa (m_class metric) c.

(** [[verdict.dict() for verdict in v]] *)
Definition dicts_of (v : PyVal) : M PyVal :=
  let! l := iter v in
  let! ds := comprehension dot_dict l in
  ret (VList ds).

(** The score of the [ContextualRelevancy] branch (lines 102-103):
    [1.0 if not irrelevancies else
     max(0, 1.0 - len(irrelevancies) / len(metric.retrieval_contexts))] *)
Definition relevancy_score (metric : Metric) (irrelevancies : PyVal) : M PyVal :=
  if py_not irrelevancies then ret (VFloat 1%Q)
  else
    let! k := py_len irrelevancies in
    let! retrieval_contexts := attr metric "retrieval_contexts" in
    let! n := py_len retrieval_contexts in
    let! ratio := py_truediv k n in
    ret (py_max0 (Qred (1 - ratio))).

(** The [if]/[elif] chain of [evaluate] (lines 69-159). *)
Definition evaluate_dispatch (metric : Metric) : M unit :=
  if isinstance metric Faithfulness then
    let! claims := call metric "evaluate_claims" [] in
    let! truths := call metric "evaluate_truths" [] in
    let! evaluate_verdicts := method metric "evaluate_verdicts" in
    let! claims_claims := field claims "claims" in
    let! verdicts := invoke metric "evaluate_verdicts" evaluate_verdicts [claims_claims] in
    let! evaluate_reason := method metric "evaluate_reason" in
    let! truths_truths := field truths "truths" in
    let! reason := invoke metric "evaluate_reason" evaluate_reason [verdicts; truths_truths] in
    let! e_claims := field claims "claims" in
    let! e_truths := field truths "truths" in
    let! verdicts_verdicts := field verdicts "verdicts" in
    let! l := iter verdicts_verdicts in
    let! e_verdicts := comprehension dunder_dict l in
    let! e_reason := field reason "reason" in
    store_result "faithfulness"
      (VDict [("claims", e_claims); ("truths", e_truths);
              ("verdicts", VList e_verdicts); ("reason", e_reason)])
  else if isinstance metric AnswerRelevancy then
    let! score := call metric "measure" [] in
    let! e_reason := attr metric "reason" in
    let! e_statements := attr metric "statements" in
    let! metric_verdicts := attr metric "verdicts" in
    let! e_verdicts := dicts_of metric_verdicts in
    store_result "answer_relevancy"
      (VDict [("score", score); ("reason", e_reason);
              ("statements", e_statements); ("verdicts", e_verdicts)])
  else if isinstance metric Bias then
    let! score := call metric "measure" [] in
    let! e_reason := attr metric "reason" in
    let! e_opinions := attr metric "opinions" in
    let! metric_verdicts := attr metric "verdicts" in
    let! e_verdicts := dicts_of metric_verdicts in
    store_result "bias"
      (VDict [("score", score); ("reason", e_reason);
              ("opinions", e_opinions); ("verdicts", e_verdicts)])
  else if isinstance metric ContextualRelevancy then
    let! get_irrelevancies := method metric "get_irrelevancies" in
    let! query := attr metric "query" in
    let! retrieval_contexts := attr metric "retrieval_contexts" in
    let! irrelevancies :=
      invoke metric "get_irrelevancies" get_irrelevancies [query; retrieval_contexts] in
    call metric "set_irrelevancies" [irrelevancies] ;;;
    let! get_verdicts := method metric "get_verdicts" in
    let! query := attr metric "query" in
    let! retrieval_contexts := attr metric "retrieval_contexts" in
    let! verdicts := invoke metric "get_verdicts" get_verdicts [query; retrieval_contexts] in
    let! score := relevancy_score metric irrelevancies in
    let! reason := call metric "get_reason" [irrelevancies; score] in
    let! verdicts_verdicts := field verdicts "verdicts" in
    let! e_verdicts := dicts_of verdicts_verdicts in
    let! e_reason := dot_dict reason in
    store_result "contextual_relevancy"
      (VDict [("verdicts", e_verdicts); ("reason", e_reason)])
  else if isinstance metric GEval then
    let! eval_result := call metric "g_eval" [] in
    store_result "geval" eval_result
  else if isinstance metric Hallucination then
    let! score := call metric "measure" [] in
    let! e_reason := attr metric "reason" in
    let! metric_verdicts := attr metric "verdicts" in
    let! e_verdicts := dicts_of metric_verdicts in
    store_result "hallucination"
      (VDict [("score", score); ("reason", e_reason); ("verdicts", e_verdicts)])
  else if isinstance metric KnowledgeRetention then
    let! score := call metric "measure" [] in
    let! e_reason := attr metric "reason" in
    let! metric_verdicts := attr metric "verdicts" in
    let! e_verdicts := dicts_of metric_verdicts in
    let! metric_knowledges := attr metric "knowledges" in
    let! l := iter metric_knowledges in
    let! e_knowledges := comprehension (fun knowledge => field knowledge "data") l in
    store_result "knowledge_retention"
      (VDict [("score", score); ("reason", e_reason);
              ("verdicts", e_verdicts); ("knowledges", VList e_knowledges)])
  else if isinstance metric Toxicity then
    let! score := call metric "measure" [] in
    let! e_reason := attr metric "reason" in
    let! e_opinions := attr metric "opinions" in
    let! metric_verdicts := attr metric "verdicts" in
    let! e_verdicts := dicts_of metric_verdicts in
    store_result "toxicity"
      (VDict [("score", score); ("reason", e_reason);
              ("opinions", e_opinions); ("verdicts", e_verdicts)])
  else if isinstance metric BertScore then
    let! score := call metric "measure" [] in
    store_result "BertScore" (VDict [("score", score)])
  else if isinstance metric BLEU then
    let! score := call metric "measure" [] in
    store_result "BLEU" (VDict [("score", score)])
  else if isinstance metric Rouge then
    let! score := call metric "measure" [] in
    store_result "Rouge" (VDict [("score", score)])
  else if isinstance metric METEOR then
    let! score := call metric "measure" [] in
    store_result "Meteor" (VDict [("score", score)])
  else if isinstance metric Gruen then
    let! score := call metric "measure" [] in
    store_result "Gruen" (VDict [("score", score)])
  else ret tt.

(** The body of the [try] (lines 68-160). *)
Definition evaluate_try (metric : Metric) (metric_name : string) : M unit :=
  logger_info ("Evaluating metric: " +:+ metric_name) ;;;
  evaluate_dispatch metric ;;;
  logger_info ("Completed evaluation for metric: " +:+ metric_name).

(** [str(e)] *)
Definition py_str_exc (e : PyExc) : M string :=
  match exc_str_raises e with
  | Some e' => raise e'
  | None => ret (exc_str e)
  end.

(** One iteration of the loop (lines 66-162).  The handler evaluates
    [str(e)] before it calls [logger.error]; the handler is not itself
    inside a [try], so what [str(e)] raises leaves the iteration. *)
Definition evaluate_metric (metric : Metric) : M unit :=
  let metric_name := cls_name (m_class metric) in
  try_except_Exception
    (evaluate_try metric metric_name)
    (fun e =>
       let! text := py_str_exc e in
       logger_error ("Error evaluating metric " +:+ metric_name +:+ ": " +:+ text)).

(** [results = {}] *)
Definition new_results : M unit :=
  fun st => (Ok tt, mkState (heap st) ∅ (trace st)).

Definition get_results : M (gmap string PyVal) :=
  fun st => (Ok (results st), st).

(** [Evaluator.evaluate] (lines 57-163) *)
Definition evaluate (self : Evaluator) : M (gmap string PyVal) :=
  new_results ;;;
  for_each (metrics self) evaluate_metric ;;;
  get_results.

(** ** Tables read off the dispatch chain *)

(** The classes in the order the chain tests them. *)
Definition dispatch_chain : list MetricClass :=
  [Faithfulness; AnswerRelevancy; Bias; ContextualRelevancy; GEval;
   Hallucination; KnowledgeRetention; Toxicity; BertScore; BLEU;
   Rouge; METEOR; Gruen].

(** The branch a metric takes: the first class of the chain it is an
    instance of. *)
Definition recognized (metric : Metric) : option MetricClass :=
  List.find (isinstance metric) dispatch_chain.

Arguments recognized : simpl never.

(** The key each branch writes. *)
Definition result_key (c : MetricClass) : string :=
  match c with
  | Faithfulness => "faithfulness"
  | AnswerRelevancy => "answer_relevancy"
  | Bias => "bias"
  | ContextualRelevancy => "contextual_relevancy"
  | GEval => "geval"
  | Hallucination => "hallucination"
  | KnowledgeRetention => "knowledge_retention"
  | Toxicity => "toxicity"
  | BertScore => "BertScore"
  | BLEU => "BLEU"
  | Rouge => "Rouge"
  | METEOR => "Meteor"
  | Gruen => "Gruen"
  end.

(** The fields of the dict literal each branch writes; the [GEval] branch
    writes what [g_eval] returned, whatever its shape. *)
Definition payload_fields (c : MetricClass) : option (list string) :=
  match c with
  | Faithfulness => Some ["claims"; "truths"; "verdicts"; "reason"]
  | AnswerRelevancy => Some ["score"; "reason"; "statements"; "verdicts"]
  | Bias => Some ["score"; "reason"; "opinions"; "verdicts"]
  | ContextualRelevancy => Some ["verdicts"; "reason"]
  | GEval => None
  | Hallucination => Some ["score"; "reason"; "verdicts"]
  | KnowledgeRetention => Some ["score"; "reason"; "verdicts"; "knowledges"]
  | Toxicity => Some ["score"; "reason"; "opinions"; "verdicts"]
  | BertScore | BLEU | Rouge | METEOR | Gruen => Some ["score"]
  end.

(** An entry with every field of its kind. *)
Definition complete_entry (c : MetricClass) (v : PyVal) : Prop :=
  match payload_fields c with
  | Some fs => exists d, v = VDict d /\ map fst d = fs
  | None => True
  end.

(** The methods the protocols call. *)
Definition protocol_methods : list string :=
  ["evaluate_claims"; "evaluate_truths"; "evaluate_verdicts"; "evaluate_reason";
   "measure"; "get_irrelevancies"; "set_irrelevancies"; "get_verdicts";
   "get_reason"; "g_eval"].

(** An event that is a protocol call on [metric]. *)
Definition protocol_call (metric : Metric) (e : Event) : Prop :=
  match e with
  | ECall o name _ _ => o = m_id metric /\ In name protocol_methods
  | ELog _ _ => False
  end.

(** A class whose methods raise nothing but instances of [Exception] whose
    [__str__] returns. *)
Definition raises_only_loggable (c : PyClass) : Prop :=
  forall name f args a e,
    cls_methods c name = Some f -> fst (f args a) = Raise e -> loggable e = true.

(** The signature of every call in a list of events, logs dropped. *)
Fixpoint calls (evs : list Event) : list (nat * string * list PyVal) :=
  match evs with
  | [] => []
  | ECall o name args _ :: evs' => (o, name, args) :: calls evs'
  | ELog _ _ :: evs' => calls evs'
  end.

(** The call that binds [model] into [metric]. *)
Definition binding_call (model : PyVal) (metric : Metric) : nat * string * list PyVal :=
  (m_id metric, "set_model", [model]).

(** [float(v)] for a number. *)
Definition py_float (v : PyVal) : option Q :=
  match v with
  | VInt z => Some (inject_Z z)
  | VFloat q => Some q
  | _ => None
  end.

(** ** Concrete metrics used in the examples *)

Module Examples.

(** A method that returns [v] and leaves [self] alone. *)
Definition returns (v : PyVal) : Method := fun _ a => (Ok v, a).

(** A method that raises [e]. *)
Definition raises (e : PyExc) : Method := fun _ a => (Raise e, a).

Definition no_class : MetricClass -> bool := fun _ => false.

Definition only (c : MetricClass) : MetricClass -> bool :=
  fun c' => match c, c' with
            | Faithfulness, Faithfulness | BLEU, BLEU | Rouge, Rouge
            | ContextualRelevancy, ContextualRelevancy | GEval, GEval => true
            | _, _ => false
            end.

Definition methods (l : list (string * Method)) : string -> option Method :=
  fun name =>
    (fix go (l : list (string * Method)) : option Method :=
       match l with
       | [] => None
       | (n, f) :: l' => if String.eqb name n then Some f else go l'
       end) l.

Definition set_model : Method := fun args a =>
  match args with
  | [m] => (Ok VNone, ("model", m) :: a)
  | _ => (Raise (TypeError "set_model() takes 1 positional argument"), a)
  end.

Definition empty_state : State := mkState (fun _ => []) ∅ [].

Definition llm : PyVal := VObj "OpenAi" [("name", VStr "M")].

(** [BLEU], exact match: [measure] returns [1.0]. *)
Definition BLEU_class : PyClass :=
  mkClass "BLEU" (only BLEU) (methods [("measure", returns (VFloat 1%Q))]).

(** A [BLEU] whose [measure] raises a [ValueError]. *)
Definition BLEU_broken_class : PyClass :=
  mkClass "BLEU" (only BLEU)
    (methods [("measure", raises (mkExc "ValueError" "empty reference" true))]).

(** A [Rouge] whose [measure] is interrupted from the keyboard. *)
Definition Rouge_interrupted_class : PyClass :=
  mkClass "Rouge" (only Rouge)
    (methods [("measure", raises (mkExc "KeyboardInterrupt" EmptyString false))]).

(** A [Rouge] whose [measure] raises an instance of [Exception] whose own
    [__str__] fails. *)
Definition Rouge_unprintable_class : PyClass :=
  mkClass "Rouge" (only Rouge)
    (methods
       [("measure",
           raises (BuildExc "ScoringError" EmptyString true
                     (Some (TypeError "__str__ returned non-string (type NoneType)"))))]).

(** A class of the caller's own, unknown to the chain. *)
Definition Custom_class : PyClass :=
  mkClass "MyMetric" no_class
    (methods [("set_model", set_model); ("measure", returns (VFloat 1%Q))]).

Definition Verdict (verdict reason : string) : PyVal :=
  VObj "Verdict" [("verdict", VStr verdict); ("reason", VStr reason)].

(** [Faithfulness] with one claim, supported. *)
Definition Faithfulness_class : PyClass :=
  mkClass "Faithfulness" (only Faithfulness)
    (methods
       [("set_model", set_model);
        ("evaluate_claims", returns (VObj "Claims" [("claims", VList [VStr "c1"])]));
        ("evaluate_truths", returns (VObj "Truths" [("truths", VList [VStr "t1"])]));
        ("evaluate_verdicts",
           returns (VObj "Verdicts" [("verdicts", VList [Verdict "yes" "stated"])]));
        ("evaluate_reason", returns (VObj "Reason" [("reason", VStr "all supported")]))]).

(** A [Faithfulness] whose third stage fails: the judge's answer cannot be
    parsed. *)
Definition Faithfulness_broken_class : PyClass :=
  mkClass "Faithfulness" (only Faithfulness)
    (methods
       [("set_model", set_model);
        ("evaluate_claims", returns (VObj "Claims" [("claims", VList [VStr "c1"])]));
        ("evaluate_truths", returns (VObj "Truths" [("truths", VList [VStr "t1"])]));
        ("evaluate_verdicts", raises (mkExc "JSONDecodeError" "Expecting value" true));
        ("evaluate_reason", returns (VObj "Reason" [("reason", VStr "all supported")]))]).

(** [ContextualRelevancy] that flags the context ["b"] as irrelevant. *)
Definition ContextualRelevancy_class : PyClass :=
  mkClass "ContextualRelevancy" (only ContextualRelevancy)
    (methods
       [("set_model", set_model);
        ("get_irrelevancies", returns (VList [VStr "b"]));
        ("set_irrelevancies", fun args a =>
           match args with
           | [x] => (Ok VNone, ("irrelevancies", x) :: a)
           | _ => (Raise (TypeError "set_irrelevancies() takes 1 positional argument"), a)
           end);
        ("get_verdicts",
           returns (VObj "Verdicts"
                      [("verdicts", VList [Verdict "yes" EmptyString; Verdict "no" "off topic";
                                           Verdict "yes" EmptyString])]));
        ("get_reason",
           returns (VObj "Reason" [("reason", VStr "one context is off topic")]))]).

Definition contextual_relevancy_attrs : Attrs :=
  [("query", VStr "Q"); ("retrieval_contexts", VList [VStr "a"; VStr "b"; VStr "c"])].

(** The state in which every object holds these attributes. *)
Definition relevancy_state : State :=
  mkState (fun _ => contextual_relevancy_attrs) ∅ [].

(** A [BLEU] that measures [0.5]. *)
Definition BLEU_half_class : PyClass :=
  mkClass "BLEU" (only BLEU) (methods [("measure", returns (VFloat (1 # 2)))]).

End Examples.

(** A step that leaves [results] alone, records nothing but protocol
    calls on [metric], and raises of its own accord only instances of
    [Exception] whose [__str__] returns. *)
Definition quiet (metric : Metric) {A} (c : M A) : Prop :=
  forall st,
    results (snd (c st)) = results st /\
    exists evs,
      trace (snd (c st)) = trace st ++ evs /\
      Forall (protocol_call metric) evs /\
      forall e, fst (c st) = Raise e ->
                raises_only_loggable (m_class metric) -> loggable e = true.

(** A branch that ends by writing one entry satisfying [P] under [key],
    or raises before writing anything. *)
Definition stores (metric : Metric) (key : string) (P : PyVal -> Prop) (c : M unit) : Prop :=
  forall st,
    exists evs,
      trace (snd (c st)) = trace st ++ evs /\
      Forall (protocol_call metric) evs /\
      match fst (c st) with
      | Ok _ => exists v, results (snd (c st)) = <[key := v]> (results st) /\ P v
      | Raise e =>
          results (snd (c st)) = results st /\
          (raises_only_loggable (m_class metric) -> loggable e = true)
      end.

(** ** One iteration of the loop, seen from outside *)

(** [st] with one more event. *)
Definition logged (st : State) (e : Event) : State :=
  mkState (heap st) (results st) (trace st ++ [e]).

Definition started (metric : Metric) : Event :=
  ELog INFO ("Evaluating metric: " +:+ cls_name (m_class metric)).

Definition completed (metric : Metric) : Event :=
  ELog INFO ("Completed evaluation for metric: " +:+ cls_name (m_class metric)).

Definition failed (metric : Metric) (e : PyExc) : Event :=
  ELog ERROR ("Error evaluating metric " +:+ cls_name (m_class metric) +:+ ": " +:+ exc_str e).

(** How an iteration ends: the protocol completed, or it raised an exception
    that the handler caught and logged, or an exception left [evaluate]: the
    one the protocol raised when it is no instance of [Exception], the one
    [str(e)] raised in the handler otherwise. *)
Inductive Outcome : Type :=
| Completed
| Caught (e : PyExc)
| Escaped (e : PyExc).

Definition outcome_of (metric : Metric) (st : State) : Outcome :=
  match fst (evaluate_try metric (cls_name (m_class metric)) st) with
  | Ok _ => Completed
  | Raise e =>
      if exc_is_Exception e then
        match exc_str_raises e with
        | None => Caught e
        | Some e' => Escaped e'
        end
      else Escaped e
  end.

(** The last record of an iteration. *)
Definition closing (metric : Metric) (o : Outcome) : list Event :=
  match o with
  | Completed => [completed metric]
  | Caught e => [failed metric e]
  | Escaped _ => []
  end.

(** What an iteration that completed leaves under the key of its kind. *)
Definition produced (metric : Metric) (st : State) : option (string * PyVal) :=
  match recognized metric, evaluate_try metric (cls_name (m_class metric)) st with
  | Some c, (Ok _, st') =>
      match results st' !! result_key c with
      | Some v => Some (result_key c, v)
      | None => None
      end
  | _, _ => None
  end.

(** [results] after an iteration that contributed [p]. *)
Definition with_entry (p : option (string * PyVal)) (r : gmap string PyVal) : gmap string PyVal :=
  match p with
  | Some (k, v) => <[k := v]> r
  | None => r
  end.

(** What each strategy of [ms] contributes when the loop runs from [st]. *)
Fixpoint contributions (ms : list Metric) (st : State) : list (option (string * PyVal)) :=
  match ms with
  | [] => []
  | metric :: ms' => produced metric st :: contributions ms' (snd (evaluate_metric metric st))
  end.

(** How each strategy of [ms] ends when the loop runs from [st]. *)
Fixpoint outcomes (ms : list Metric) (st : State) : list Outcome :=
  match ms with
  | [] => []
  | metric :: ms' => outcome_of metric st :: outcomes ms' (snd (evaluate_metric metric st))
  end.

(** The payload of the last contribution under key [k]: the one found
    further down the list if there is one, this one otherwise. *)
Fixpoint last_contribution (k : string) (l : list (option (string * PyVal))) : option PyVal :=
  match l with
  | [] => None
  | p :: l' =>
      match last_contribution k l' with
      | Some v => Some v
      | None =>
          match p with
          | Some (k', v) => if String.eqb k k' then Some v else None
          | None => None
          end
      end
  end.

(** The state in which the loop of [evaluate] starts. *)
Definition fresh (st : State) : State := mkState (heap st) ∅ (trace st).

(** What the turn of [metric] assigns in [results] when it runs from [st]:
    the dict it leaves when [results] is empty at the start of the turn.
    What [results] held before is kept out of it. *)
Definition assignments (metric : Metric) (st : State) : gmap string PyVal :=
  results (snd (evaluate_metric metric (fresh st))).

(** What each strategy of [ms] assigns when the loop runs from [st]. *)
Fixpoint assignments_along (ms : list Metric) (st : State) : list (gmap string PyVal) :=
  match ms with
  | [] => []
  | metric :: ms' =>
      assignments metric st :: assignments_along ms' (snd (evaluate_metric metric st))
  end.

(** The value last assigned to key [k]: the one assigned further down the
    list if there is one, the one assigned here otherwise. *)
Fixpoint last_assignment (k : string) (l : list (gmap string PyVal)) : option PyVal :=
  match l with
  | [] => None
  | m :: l' =>
      match last_assignment k l' with
      | Some v => Some v
      | None => m !! k
      end
  end.

(** [r] after the assignments [ups], made from left to right. *)
Definition assigned (ups : list (string * PyVal)) (r : gmap string PyVal) : gmap string PyVal :=
  fold_left (fun m kv => <[fst kv := snd kv]> m) ups r.

(** [c] reads nothing but the heap: from a given heap it has one result,
    leaves one heap, makes the same assignments to [results] and adds the
    same events, whatever [results] and the trace were. *)
Definition heap_determined {A} (c : M A) : Prop :=
  forall h, exists res h' ups evs,
    forall r t, c (mkState h r t) = (res, mkState h' (assigned ups r) (t ++ evs)).

(** The events of one strategy's turn: the opening record, calls on that
    strategy only, and the record that closes the turn (none when the
    exception leaves [evaluate]). *)
Definition turn (metric : Metric) (seg : list Event) : Prop :=
  exists body o,
    Forall (protocol_call metric) body /\
    seg = started metric :: body ++ closing metric o.

(** ** The binder *)

(** The strategies the binder calls: those with a [set_model] attribute. *)
Definition wants_model (metric : Metric) : bool := hasattr metric "set_model".

(** A call that returned. *)
Definition returned_normally (e : Event) : Prop :=
  match e with
  | ECall _ _ _ (Raise _) => False
  | _ => True
  end.

(** The loop of [set_model_for_metrics] (lines 52-54). *)
Definition binder_loop (self : Evaluator) : M unit :=
  for_each (metrics self) (fun metric =>
    if hasattr metric "set_model" then
      call metric "set_model" [model self] ;;; ret tt
    else ret tt).

(** ** Following a branch step by step *)

(** A computation that neither reads nor changes the state. *)
Definition stateless {A} (c : M A) : Prop := exists r, forall s, c s = (r, s).

(** [c] returns [a], whatever the state, and leaves it alone. *)
Definition yields {A} (c : M A) (a : A) : Prop := forall s, c s = (Ok a, s).

(** The state after a call of a method that left attributes [a'] and
    result [r]. *)
Definition called (st : State) (metric : Metric) (name : string) (args : list PyVal)
    (r : Res PyVal) (a' : Attrs) : State :=
  mkState (upd (heap st) (m_id metric) a') (results st)
          (trace st ++ [ECall (m_id metric) name args r]).

(** The events and the entry of a [Faithfulness] protocol that completed:
    the four stages in order, each fed what the earlier ones returned, and
    the entry made of the four outputs. *)
Definition faithfulness_protocol (o : nat) (evs : list Event) (entry : PyVal) : Prop :=
  exists claims truths verdicts reason claims_claims truths_truths verdicts_verdicts l
         e_verdicts e_reason,
    yields (field claims "claims") claims_claims /\
    yields (field truths "truths") truths_truths /\
    yields (field verdicts "verdicts") verdicts_verdicts /\
    yields (iter verdicts_verdicts) l /\
    yields (comprehension dunder_dict l) e_verdicts /\
    yields (field reason "reason") e_reason /\
    evs = [ECall o "evaluate_claims" [] (Ok claims);
           ECall o "evaluate_truths" [] (Ok truths);
           ECall o "evaluate_verdicts" [claims_claims] (Ok verdicts);
           ECall o "evaluate_reason" [verdicts; truths_truths] (Ok reason)] /\
    entry = VDict [("claims", claims_claims); ("truths", truths_truths);
                   ("verdicts", VList e_verdicts); ("reason", e_reason)].

(** Every [faithfulness] entry in [results] is backed by a completed
    [Faithfulness] protocol recorded in the trace. *)
Definition faithfulness_backed (ms : list Metric) (st : State) : Prop :=
  forall entry,
    results st !! "faithfulness" = Some entry ->
    exists metric pre evs post,
      In metric ms /\ isinstance metric Faithfulness = true /\
      trace st = pre ++ evs ++ post /\
      faithfulness_protocol (m_id metric) evs entry.

(** ** The [ContextualRelevancy] branch *)

(** A class whose methods leave the [retrieval_contexts] attribute as the
    caller set it. *)
Definition keeps_contexts (c : PyClass) : Prop :=
  forall name f args a,
    cls_methods c name = Some f ->
    assoc "retrieval_contexts" (snd (f args a)) = assoc "retrieval_contexts" a.

(** Lines 102-103: the score, from what [get_irrelevancies] returned and the
    context list. *)
Definition score_of (irrelevancies contexts score : PyVal) : Prop :=
  if py_not irrelevancies then score = VFloat 1%Q
  else
    exists k n,
      yields (py_len irrelevancies) k /\ yields (py_len contexts) n /\ n <> 0%Z /\
      score = py_max0 (Qred (1 - Qred (inject_Z k / inject_Z n))).

(** The branch stopped before it asked for the rationale. *)
Definition reason_not_requested (metric : Metric) (st : State) (out : Res unit * State) : Prop :=
  (exists e, fst out = Raise e) /\
  exists evs,
    trace (snd out) = trace st ++ evs /\
    forall args res, ~ In (ECall (m_id metric) "get_reason" args res) evs.

(** The branch asked for the rationale: its four calls, the score it passed,
    and the entry it wrote if it went on to complete. *)
Definition reason_requested (metric : Metric) (contexts : PyVal) (st : State)
    (out : Res unit * State) : Prop :=
  exists query irrelevancies r_set query' verdicts score r_reason,
    trace (snd out) =
      trace st ++
      [ECall (m_id metric) "get_irrelevancies" [query; contexts] (Ok irrelevancies);
       ECall (m_id metric) "set_irrelevancies" [irrelevancies] (Ok r_set);
       ECall (m_id metric) "get_verdicts" [query'; contexts] (Ok verdicts);
       ECall (m_id metric) "get_reason" [irrelevancies; score] r_reason] /\
    score_of irrelevancies contexts score /\
    (forall u, fst out = Ok u ->
       exists reason verdicts_verdicts e_verdicts,
         r_reason = Ok reason /\
         yields (field verdicts "verdicts") verdicts_verdicts /\
         yields (dicts_of verdicts_verdicts) e_verdicts /\
         results (snd out) =
           <["contextual_relevancy" :=
               VDict [("verdicts", e_verdicts); ("reason", model_dump reason)]]> (results st)).

(** The two ways the branch can go. *)
Definition branch_outcome (metric : Metric) (contexts : PyVal) (st : State)
    (out : Res unit * State) : Prop :=
  reason_not_requested metric st out \/ reason_requested metric contexts st out.

(** Whether the number [q] occurs anywhere in [v]. *)
Fixpoint holds_number (q : Q) (v : PyVal) : bool :=
  match v with
  | VInt z => Qeq_bool (inject_Z z) q
  | VFloat x => Qeq_bool x q
  | VList l =>
      (fix go (l : list PyVal) : bool :=
         match l with
         | [] => false
         | x :: l' => holds_number q x || go l'
         end) l
  | VDict d | VObj _ d =>
      (fix go (d : list (string * PyVal)) : bool :=
         match d with
         | [] => false
         | (_, x) :: d' => holds_number q x || go d'
         end) d
  | _ => false
  end.

(** ** Vocabulary of the further properties *)

(** The messages of the ERROR records among [evs], in order. *)
Fixpoint error_records (evs : list Event) : list string :=
  match evs with
  | [] => []
  | ELog ERROR msg :: evs' => msg :: error_records evs'
  | _ :: evs' => error_records evs'
  end.

(** The messages the handler writes for the strategies of [ms] that ended
    as [os] says: one for each caught exception. *)
Fixpoint failure_messages (ms : list Metric) (os : list Outcome) : list string :=
  match ms, os with
  | metric :: ms', Caught e :: os' =>
      ("Error evaluating metric " +:+ cls_name (m_class metric) +:+ ": " +:+ exc_str e)
        :: failure_messages ms' os'
  | _ :: ms', _ :: os' => failure_messages ms' os'
  | _, _ => []
  end.

(** The method each branch looks up first. *)
Definition entry_method (c : MetricClass) : string :=
  match c with
  | Faithfulness => "evaluate_claims"
  | ContextualRelevancy => "get_irrelevancies"
  | GEval => "g_eval"
  | _ => "measure"
  end.

(** The kinds whose branch makes the single call [metric.measure()]. *)
Definition measured (c : MetricClass) : bool :=
  match c with
  | Faithfulness | ContextualRelevancy | GEval => false
  | _ => true
  end.

(** The fields of an entry that are copied from attributes of the strategy
    (the [verdicts] and [knowledges] fields are converted, not copied). *)
Definition copied_fields (c : MetricClass) : list string :=
  match c with
  | AnswerRelevancy => ["reason"; "statements"]
  | Bias | Toxicity => ["reason"; "opinions"]
  | Hallucination | KnowledgeRetention => ["reason"]
  | _ => []
  end.

(** What the score expression does, by cases on its result. *)
Definition score_outcome (metric : Metric) (irrelevancies : PyVal) (st : State)
    (r : Res PyVal) : Prop :=
  match r with
  | Ok score =>
      (py_not irrelevancies = true /\ score = VFloat 1%Q) \/
      (py_not irrelevancies = false /\
       (score = VInt 0 \/ exists x, score = VFloat x /\ (0 < x)%Q /\ (x < 1)%Q))
  | Raise e =>
      exc_is_Exception e = true /\
      (exc_type e = "ZeroDivisionError" <->
       py_not irrelevancies = false /\
       (exists k, yields (py_len irrelevancies) k) /\
       exists contexts,
         assoc "retrieval_contexts" (heap st (m_id metric)) = Some contexts /\
         yields (py_len contexts) 0%Z)
  end.

(** An [AnswerRelevancy] whose [measure] leaves its findings on the
    object, as the metrics of the package do. *)
Definition AnswerRelevancy_example : PyClass :=
  mkClass "AnswerRelevancy"
    (fun c => match c with AnswerRelevancy => true | _ => false end)
    (fun name =>
       if String.eqb name "measure" then
         Some (fun _ a =>
                 (Ok (VFloat (1 # 2)),
                  ("reason", VStr "one statement of two is relevant")
                    :: ("statements", VList [VStr "s1"; VStr "s2"])
                    :: ("verdicts",
                        VList [VObj "Verdict" [("verdict", VStr "yes")];
                               VObj "Verdict" [("verdict", VStr "no")]])
                    :: a))
       else None).

(** A [GEval] whose [g_eval] returns a bare number. *)
Definition GEval_example : PyClass :=
  mkClass "GEval"
    (fun c => match c with GEval => true | _ => false end)
    (fun name =>
       if String.eqb name "g_eval" then Some (fun _ a => (Ok (VInt 8), a)) else None).

(** The state in which every object has a query and no context. *)
Definition no_contexts_state : State :=
  mkState (fun _ => [("query", VStr "Q"); ("retrieval_contexts", VList [])]) ∅ [].

(** * Lemmas and theorems *)

(** ** Reasoning about protocol steps *)

Lemma bind_Ok {A B} (c : M A) (k : A -> M B) st a st1 :
  c st = (Ok a, st1) -> bind c k st = k a st1.
Proof. intros H. unfold bind. now rewrite H. Qed.

Lemma bind_Raise {A B} (c : M A) (k : A -> M B) st e st1 :
  c st = (Raise e, st1) -> bind c k st = (Raise e, st1).
Proof. intros H. unfold bind. now rewrite H. Qed.

Lemma in_protocol_methods_dec (name : string) :
  existsb (String.eqb name) protocol_methods = true -> In name protocol_methods.
Proof.
  intros H. apply existsb_exists in H as (x & Hin & Heq).
  apply String.eqb_eq in Heq. now subst.
Qed.

Section Steps.

Variable metric : Metric.

Lemma quiet_ret {A} (a : A) : quiet metric (ret a).
Proof.
  intros st. split; [reflexivity|]. exists []. cbn.
  rewrite app_nil_r. repeat split; [constructor | discriminate].
Qed.

Lemma quiet_raise {A} (e : PyExc) : loggable e = true -> quiet metric (@raise A e).
Proof.
  intros He st. split; [reflexivity|]. exists []. cbn.
  rewrite app_nil_r. repeat split; [constructor|]. now intros e' [= <-] _.
Qed.

Lemma quiet_bind {A B} (c : M A) (k : A -> M B) :
  quiet metric c -> (forall a, quiet metric (k a)) -> quiet metric (bind c k).
Proof.
  intros Hc Hk st. destruct (Hc st) as (Hr & evs & Ht & Hf & He).
  destruct (c st) as [[a|e] st1] eqn:E; cbn in *.
  - rewrite (bind_Ok _ _ _ _ _ E).
    destruct (Hk a st1) as (Hr' & evs' & Ht' & Hf' & He').
    split; [congruence|]. exists (evs ++ evs').
    rewrite Ht', Ht, app_assoc. repeat split; [now apply Forall_app | exact He'].
  - rewrite (bind_Raise _ _ _ _ _ E). cbn. split; [exact Hr|].
    exists evs. repeat split; try assumption.
    intros e0 [= <-] Hcls. now apply He.
Qed.

Lemma quiet_if {A} (b : bool) (c1 c2 : M A) :
  quiet metric c1 -> quiet metric c2 -> quiet metric (if b then c1 else c2).
Proof. now destruct b. Qed.

Lemma quiet_attr name : quiet metric (attr metric name).
Proof.
  intros st. unfold attr. destruct (assoc name _); cbn.
  - split; [reflexivity|]. exists []. rewrite app_nil_r.
    repeat split; [constructor | discriminate].
  - split; [reflexivity|]. exists []. rewrite app_nil_r.
    repeat split; [constructor|]. now intros e [= <-] _.
Qed.

Lemma quiet_invoke name f args :
  cls_methods (m_class metric) name = Some f ->
  In name protocol_methods ->
  quiet metric (invoke metric name f args).
Proof.
  intros Hf Hin st. unfold invoke.
  destruct (f args (heap st (m_id metric))) as [r a'] eqn:E; cbn.
  split; [reflexivity|]. eexists. split; [reflexivity|]. split.
  - constructor; [now split | constructor].
  - intros e -> Hc. apply (Hc name f args (heap st (m_id metric)) e Hf).
    now rewrite E.
Qed.

(** The method found by [metric.name] is the class's. *)
Lemma quiet_method_bind {B} name (k : Method -> M B) :
  (forall f, cls_methods (m_class metric) name = Some f -> quiet metric (k f)) ->
  quiet metric (bind (method metric name) k).
Proof.
  intros Hk st. unfold bind, method.
  destruct (cls_methods (m_class metric) name) as [f|] eqn:E.
  - apply (Hk f eq_refl).
  - cbn. split; [reflexivity|]. exists []. rewrite app_nil_r.
    repeat split; [constructor|]. now intros e [= <-] _.
Qed.

Lemma quiet_call name args :
  In name protocol_methods -> quiet metric (call metric name args).
Proof.
  intros Hin. apply quiet_method_bind. intros f Hf. now apply quiet_invoke.
Qed.

Lemma quiet_field v name : quiet metric (field v name).
Proof.
  unfold field. destruct v; try (now apply quiet_raise).
  destruct (assoc name fields); [apply quiet_ret | now apply quiet_raise].
Qed.

Lemma quiet_dunder_dict v : quiet metric (dunder_dict v).
Proof. destruct v; cbn; first [apply quiet_ret | now apply quiet_raise]. Qed.

Lemma quiet_dot_dict v : quiet metric (dot_dict v).
Proof.
  destruct v; try (now apply quiet_raise). apply (quiet_ret (model_dump (VObj cls fields))).
Qed.

Lemma quiet_iter v : quiet metric (iter v).
Proof. destruct v; cbn; first [apply quiet_ret | now apply quiet_raise]. Qed.

Lemma quiet_py_len v : quiet metric (py_len v).
Proof. destruct v; cbn; first [apply quiet_ret | now apply quiet_raise]. Qed.

Lemma quiet_py_truediv a b : quiet metric (py_truediv a b).
Proof.
  unfold py_truediv. destruct (Z.eqb b 0); [now apply quiet_raise | apply quiet_ret].
Qed.

Lemma quiet_comprehension f l :
  (forall x, quiet metric (f x)) -> quiet metric (comprehension f l).
Proof.
  intros Hf. induction l as [|x l IH]; cbn.
  - apply quiet_ret.
  - apply quiet_bind; [apply Hf|]. intros y.
    apply quiet_bind; [exact IH|]. intros ys. apply quiet_ret.
Qed.

Lemma quiet_dicts_of v : quiet metric (dicts_of v).
Proof.
  unfold dicts_of. apply quiet_bind; [apply quiet_iter|]. intros l.
  apply quiet_bind; [apply quiet_comprehension, quiet_dot_dict|].
  intros ds. apply quiet_ret.
Qed.

Lemma quiet_relevancy_score v : quiet metric (relevancy_score metric v).
Proof.
  unfold relevancy_score. apply quiet_if; [apply quiet_ret|].
  apply quiet_bind; [apply quiet_py_len|]. intros k.
  apply quiet_bind; [apply quiet_attr|]. intros c.
  apply quiet_bind; [apply quiet_py_len|]. intros n.
  apply quiet_bind; [apply quiet_py_truediv|]. intros q. apply quiet_ret.
Qed.

Lemma stores_store key (P : PyVal -> Prop) v : P v -> stores metric key P (store_result key v).
Proof.
  intros HP st. exists []. cbn. rewrite app_nil_r.
  repeat split; [constructor|]. now exists v.
Qed.

Lemma stores_bind {A} key P (c : M A) (k : A -> M unit) :
  quiet metric c -> (forall a, stores metric key P (k a)) -> stores metric key P (bind c k).
Proof.
  intros Hc Hk st. destruct (Hc st) as (Hr & evs & Ht & Hf & He).
  destruct (c st) as [[a|e] st1] eqn:E; cbn in *.
  - rewrite (bind_Ok _ _ _ _ _ E).
    destruct (Hk a st1) as (evs' & Ht' & Hf' & Hres).
    exists (evs ++ evs'). rewrite Ht', Ht, app_assoc.
    repeat split; [now apply Forall_app|].
    destruct (fst (k a st1)); [now rewrite <- Hr | now rewrite <- Hr].
  - rewrite (bind_Raise _ _ _ _ _ E). exists evs. cbn.
    repeat split; try assumption. now apply He.
Qed.

Lemma stores_method_bind key P name (k : Method -> M unit) :
  (forall f, cls_methods (m_class metric) name = Some f -> stores metric key P (k f)) ->
  stores metric key P (bind (method metric name) k).
Proof.
  intros Hk st. unfold bind, method.
  destruct (cls_methods (m_class metric) name) as [f|] eqn:E.
  - apply (Hk f eq_refl).
  - exists []. cbn. rewrite app_nil_r. repeat split. constructor.
Qed.

End Steps.

Create HintDb steps.

#[local] Hint Resolve quiet_ret quiet_attr quiet_field quiet_dunder_dict quiet_dot_dict
  quiet_iter quiet_py_len quiet_py_truediv quiet_dicts_of quiet_relevancy_score : steps.

(** Closes [In name protocol_methods] for a literal [name]. *)
Ltac protocol_name := apply in_protocol_methods_dec; reflexivity.

(** Discharges [quiet c] by following the shape of [c]. *)
Ltac quiet_step :=
  lazymatch goal with
  | |- quiet _ (bind (method _ _) _) => apply quiet_method_bind; intros ? ?
  | |- quiet _ (bind _ _) => apply quiet_bind; [|intros ?]
  | |- quiet _ (if _ then _ else _) => apply quiet_if
  | |- quiet _ (call _ _ _) => apply quiet_call; protocol_name
  | |- quiet _ (invoke _ _ _ _) => apply quiet_invoke; [assumption | protocol_name]
  | |- quiet _ (comprehension _ _) => apply quiet_comprehension; intros ?
  | |- quiet _ _ => solve [auto with steps]
  end.

(** Discharges [stores key P c] for a branch of the dispatch chain. *)
Ltac stores_step :=
  lazymatch goal with
  | |- stores _ _ _ (bind (method _ _) _) => apply stores_method_bind; intros ? ?
  | |- stores _ _ _ (bind _ _) => apply stores_bind; [repeat quiet_step | intros ?]
  | |- stores _ _ _ (store_result _ _) => apply stores_store
  end.

(** ** What one pass of the dispatch chain does *)

(** Runs [tac] in the branch of each test of the chain, in order, and leaves
    the case where every test failed. *)
Ltac down_the_chain metric tac :=
  destruct (isinstance metric Faithfulness) eqn:?; [tac|];
  destruct (isinstance metric AnswerRelevancy) eqn:?; [tac|];
  destruct (isinstance metric Bias) eqn:?; [tac|];
  destruct (isinstance metric ContextualRelevancy) eqn:?; [tac|];
  destruct (isinstance metric GEval) eqn:?; [tac|];
  destruct (isinstance metric Hallucination) eqn:?; [tac|];
  destruct (isinstance metric KnowledgeRetention) eqn:?; [tac|];
  destruct (isinstance metric Toxicity) eqn:?; [tac|];
  destruct (isinstance metric BertScore) eqn:?; [tac|];
  destruct (isinstance metric BLEU) eqn:?; [tac|];
  destruct (isinstance metric Rouge) eqn:?; [tac|];
  destruct (isinstance metric METEOR) eqn:?; [tac|];
  destruct (isinstance metric Gruen) eqn:?; [tac|].

(** A recognized metric: its branch writes one complete entry under the key
    of its kind, or raises before writing. *)
Lemma dispatch_stores metric c :
  recognized metric = Some c ->
  stores metric (result_key c) (complete_entry c) (evaluate_dispatch metric).
Proof.
  unfold recognized, evaluate_dispatch. cbn [List.find dispatch_chain].
  down_the_chain metric
    ltac:(intros [= <-]; cbn [result_key]; repeat stores_step;
          first [ exact I | eexists; split; reflexivity ]).
  discriminate.
Qed.

(** A metric no test of the chain accepts falls through every branch. *)
Lemma dispatch_unrecognized metric :
  recognized metric = None -> evaluate_dispatch metric = ret tt.
Proof.
  unfold recognized, evaluate_dispatch. cbn [List.find dispatch_chain].
  down_the_chain metric ltac:(discriminate).
  reflexivity.
Qed.

Lemma for_each_app {A} (l1 l2 : list A) (body : A -> M unit) st :
  for_each (l1 ++ l2) body st = (for_each l1 body ;;; for_each l2 body) st.
Proof.
  revert st. induction l1 as [|x l1 IH]; intros st; cbn.
  - reflexivity.
  - unfold bind in *. destruct (body x st) as [[u|e] st1]; [apply IH | reflexivity].
Qed.

(** The [try] body: the two records around the chain. *)
Lemma evaluate_try_unfold metric st :
  evaluate_try metric (cls_name (m_class metric)) st =
  match evaluate_dispatch metric (logged st (started metric)) with
  | (Ok _, st1) => (Ok tt, logged st1 (completed metric))
  | (Raise e, st1) => (Raise e, st1)
  end.
Proof.
  unfold evaluate_try, bind, logger_info, emit, logged, started, completed. cbn.
  destruct (evaluate_dispatch metric _) as [[u|e] st1]; reflexivity.
Qed.

Lemma evaluate_metric_completed metric st st1 :
  evaluate_try metric (cls_name (m_class metric)) st = (Ok tt, st1) ->
  evaluate_metric metric st = (Ok tt, st1).
Proof. intros H. unfold evaluate_metric, try_except_Exception. now rewrite H. Qed.

Lemma loggable_spec e :
  loggable e = true <-> exc_is_Exception e = true /\ exc_str_raises e = None.
Proof.
  unfold loggable. destruct (exc_is_Exception e), (exc_str_raises e); cbn; split;
    first [discriminate | now intros [? ?] | now split].
Qed.

(** One iteration, by cases on how the [try] body ends. *)
Lemma evaluate_metric_unfold metric st :
  evaluate_metric metric st =
  match evaluate_try metric (cls_name (m_class metric)) st with
  | (Ok u, st1) => (Ok u, st1)
  | (Raise e, st1) =>
      if exc_is_Exception e then
        match exc_str_raises e with
        | None => (Ok tt, logged st1 (failed metric e))
        | Some e' => (Raise e', st1)
        end
      else (Raise e, st1)
  end.
Proof.
  unfold evaluate_metric, try_except_Exception.
  destruct (evaluate_try metric _ st) as [[u|e] st1]; [reflexivity|].
  destruct (exc_is_Exception e); [|reflexivity].
  unfold bind, py_str_exc. destruct (exc_str_raises e); reflexivity.
Qed.

Lemma evaluate_metric_caught metric st e st1 :
  evaluate_try metric (cls_name (m_class metric)) st = (Raise e, st1) ->
  loggable e = true ->
  evaluate_metric metric st = (Ok tt, logged st1 (failed metric e)).
Proof.
  intros H [He Hs]%loggable_spec. rewrite evaluate_metric_unfold, H, He, Hs. reflexivity.
Qed.

(** What [str(e)] raises in the handler leaves the iteration. *)
Lemma evaluate_metric_str_raises metric st e e' st1 :
  evaluate_try metric (cls_name (m_class metric)) st = (Raise e, st1) ->
  exc_is_Exception e = true ->
  exc_str_raises e = Some e' ->
  evaluate_metric metric st = (Raise e', st1).
Proof.
  intros H He Hs. rewrite evaluate_metric_unfold, H, He, Hs. reflexivity.
Qed.

Lemma evaluate_metric_escaped metric st e st1 :
  evaluate_try metric (cls_name (m_class metric)) st = (Raise e, st1) ->
  exc_is_Exception e = false ->
  evaluate_metric metric st = (Raise e, st1).
Proof.
  intros H He. unfold evaluate_metric, try_except_Exception. now rewrite H, He.
Qed.

(** The result of an iteration is decided by its outcome. *)
Lemma evaluate_metric_result metric st :
  fst (evaluate_metric metric st) =
  match outcome_of metric st with
  | Escaped e => Raise e
  | _ => Ok tt
  end.
Proof.
  rewrite evaluate_metric_unfold. unfold outcome_of.
  destruct (evaluate_try metric _ st) as [[[]|e] st1] eqn:E; cbn; [reflexivity|].
  destruct (exc_is_Exception e); [|reflexivity].
  destruct (exc_str_raises e); reflexivity.
Qed.

(** The events of an iteration: the opening record, protocol calls on the
    metric and nothing else, the closing record. *)
Lemma evaluate_metric_trace metric st :
  exists body,
    Forall (protocol_call metric) body /\
    trace (snd (evaluate_metric metric st)) =
    trace st ++ started metric :: body ++ closing metric (outcome_of metric st).
Proof.
  unfold outcome_of.
  assert (Hd : exists body, Forall (protocol_call metric) body /\
            trace (snd (evaluate_dispatch metric (logged st (started metric)))) =
            (trace st ++ [started metric]) ++ body /\
            (recognized metric = None -> body = [])).
  { destruct (recognized metric) as [c|] eqn:Hc.
    - destruct (dispatch_stores _ _ Hc (logged st (started metric))) as (evs & Ht & Hf & _).
      exists evs. repeat split; [assumption | exact Ht | discriminate].
    - rewrite (dispatch_unrecognized _ Hc). exists []. cbn.
      rewrite app_nil_r. repeat split. constructor. }
  destruct Hd as (body & Hf & Ht & _). exists body. split; [exact Hf|].
  pose proof (evaluate_try_unfold metric st) as Hu.
  destruct (evaluate_dispatch metric (logged st (started metric))) as [[u|e] st1] eqn:E;
    cbn in Ht.
  - rewrite (evaluate_metric_completed _ _ _ Hu), Hu. cbn.
    rewrite Ht, <- !app_assoc. reflexivity.
  - rewrite evaluate_metric_unfold, Hu. cbn.
    destruct (exc_is_Exception e); [destruct (exc_str_raises e)|]; cbn;
      rewrite Ht, <- !app_assoc, ?app_nil_r; reflexivity.
Qed.

(** What the dispatch chain leaves in [results], by cases on the branch. *)
Lemma dispatch_results metric st :
  match recognized metric, fst (evaluate_dispatch metric st) with
  | Some c, Ok _ =>
      exists v, results (snd (evaluate_dispatch metric st)) = <[result_key c := v]> (results st) /\
                complete_entry c v
  | _, _ => results (snd (evaluate_dispatch metric st)) = results st
  end.
Proof.
  destruct (recognized metric) as [c|] eqn:Hc.
  - destruct (dispatch_stores _ _ Hc st) as (evs & _ & _ & H).
    destruct (fst (evaluate_dispatch metric st)); [exact H | apply H].
  - rewrite (dispatch_unrecognized _ Hc). reflexivity.
Qed.

(** An iteration changes [results] by its contribution and nothing else. *)
Lemma evaluate_metric_results metric st :
  results (snd (evaluate_metric metric st)) = with_entry (produced metric st) (results st).
Proof.
  unfold produced.
  pose proof (evaluate_try_unfold metric st) as Hu.
  pose proof (dispatch_results metric (logged st (started metric))) as Hd.
  destruct (evaluate_dispatch metric (logged st (started metric))) as [[u|e] st1] eqn:E;
    cbn in Hd.
  - rewrite (evaluate_metric_completed _ _ _ Hu), Hu. cbn.
    destruct (recognized metric) as [c|]; [|exact Hd].
    destruct Hd as (v & -> & _). rewrite lookup_insert_eq. reflexivity.
  - rewrite Hu.
    assert (Hr : results st1 = results st) by (now destruct (recognized metric)).
    rewrite evaluate_metric_unfold, Hu.
    destruct (exc_is_Exception e); [destruct (exc_str_raises e)|]; cbn;
      now destruct (recognized metric).
Qed.

(** A contribution comes from a recognized metric whose protocol completed,
    sits under the key of its kind and has every field of its kind. *)
Lemma produced_inv metric st k v :
  produced metric st = Some (k, v) ->
  exists c, recognized metric = Some c /\ k = result_key c /\ complete_entry c v /\
            outcome_of metric st = Completed.
Proof.
  unfold produced, outcome_of.
  pose proof (evaluate_try_unfold metric st) as Hu.
  pose proof (dispatch_results metric (logged st (started metric))) as Hd.
  destruct (recognized metric) as [c|]; [|discriminate].
  destruct (evaluate_dispatch metric (logged st (started metric))) as [[u|e] st1] eqn:E;
    cbn in Hd; rewrite Hu; cbn; [|discriminate].
  destruct Hd as (v' & -> & Hv'). rewrite lookup_insert_eq. intros [= <- <-].
  exists c. repeat split; assumption.
Qed.

(** A recognized metric whose protocol completed does contribute. *)
Lemma completed_produced metric st c :
  recognized metric = Some c ->
  outcome_of metric st = Completed ->
  exists v, produced metric st = Some (result_key c, v).
Proof.
  unfold produced, outcome_of. intros Hc.
  pose proof (evaluate_try_unfold metric st) as Hu.
  pose proof (dispatch_results metric (logged st (started metric))) as Hd.
  rewrite Hc in *.
  destruct (evaluate_dispatch metric (logged st (started metric))) as [[u|e] st1] eqn:E;
    cbn in Hd; rewrite Hu; cbn.
  - destruct Hd as (v & -> & _). rewrite lookup_insert_eq. now exists v.
  - destruct (exc_is_Exception e); [destruct (exc_str_raises e)|]; discriminate.
Qed.

(** The chain itself raises only instances of [Exception] whose [__str__]
    returns; anything else comes out of a method of the metric. *)
Lemma dispatch_raises_loggable metric st e :
  raises_only_loggable (m_class metric) ->
  fst (evaluate_dispatch metric st) = Raise e ->
  loggable e = true.
Proof.
  intros Hcls He. destruct (recognized metric) as [c|] eqn:Hc.
  - destruct (dispatch_stores _ _ Hc st) as (evs & _ & _ & H).
    rewrite He in H. now apply H.
  - rewrite (dispatch_unrecognized _ Hc) in He. discriminate.
Qed.

Lemma outcome_never_escapes metric st :
  raises_only_loggable (m_class metric) ->
  forall e, outcome_of metric st <> Escaped e.
Proof.
  intros Hcls e0. unfold outcome_of.
  pose proof (evaluate_try_unfold metric st) as Hu.
  pose proof (dispatch_raises_loggable metric (logged st (started metric))) as Hd.
  destruct (evaluate_dispatch metric (logged st (started metric))) as [[u|e] st1] eqn:E;
    rewrite Hu; cbn; [discriminate|].
  destruct (proj1 (loggable_spec e) (Hd e Hcls eq_refl)) as [-> ->]. discriminate.
Qed.

(** ** The loop *)

Lemma for_each_cons_Ok {A} (x : A) l (body : A -> M unit) st st1 :
  body x st = (Ok tt, st1) -> for_each (x :: l) body st = for_each l body st1.
Proof. intros H. cbn. now rewrite (bind_Ok _ _ _ _ _ H). Qed.

Lemma for_each_cons_Raise {A} (x : A) l (body : A -> M unit) st e st1 :
  body x st = (Raise e, st1) -> for_each (x :: l) body st = (Raise e, st1).
Proof. intros H. cbn. now rewrite (bind_Raise _ _ _ _ _ H). Qed.

Lemma evaluate_unfold self st :
  evaluate self st =
  match for_each (metrics self) evaluate_metric (fresh st) with
  | (Ok _, st') => (Ok (results st'), st')
  | (Raise e, st') => (Raise e, st')
  end.
Proof.
  unfold evaluate, bind, new_results, get_results, fresh.
  destruct (for_each _ _ _) as [[u|e] st']; reflexivity.
Qed.

Lemma result_key_inj c c' : result_key c = result_key c' -> c = c'.
Proof. destruct c, c'; first [reflexivity | discriminate]. Qed.

(** When the loop returns, every key holds the payload of the last
    contribution made under it, or what it held before the loop. *)
Lemma loop_results ms : forall st st',
  for_each ms evaluate_metric st = (Ok tt, st') ->
  forall k,
    results st' !! k =
    match last_contribution k (contributions ms st) with
    | Some v => Some v
    | None => results st !! k
    end.
Proof.
  induction ms as [|metric ms IH]; intros st st' H k.
  - cbn in H. injection H as <-. reflexivity.
  - destruct (evaluate_metric metric st) as [[[]|e] st1] eqn:E.
    + rewrite (for_each_cons_Ok _ _ _ _ _ E) in H.
      cbn [contributions last_contribution]. rewrite E. cbn [snd].
      rewrite (IH _ _ H k).
      destruct (last_contribution k (contributions ms st1)); [reflexivity|].
      pose proof (evaluate_metric_results metric st) as Hr. rewrite E in Hr. cbn in Hr.
      rewrite Hr. destruct (produced metric st) as [[k' v]|]; cbn; [|reflexivity].
      destruct (String.eqb_spec k k') as [->|Hne].
      * apply lookup_insert_eq.
      * apply lookup_insert_ne. congruence.
    + rewrite (for_each_cons_Raise _ _ _ _ _ _ E) in H. discriminate.
Qed.

(** A contribution found by [last_contribution] was made by some strategy
    of the list, at its position. *)
Lemma last_contribution_Some k l v :
  last_contribution k l = Some v -> exists i, l !! i = Some (Some (k, v)).
Proof.
  induction l as [|p l IH]; cbn; [discriminate|].
  destruct (last_contribution k l) as [v'|].
  - intros [= ->]. destruct (IH eq_refl) as [i Hi]. now exists (S i).
  - destruct p as [[k' v']|]; [|discriminate].
    destruct (String.eqb_spec k k') as [->|]; [|discriminate].
    intros [= ->]. now exists 0.
Qed.

(** Position [i] of [contributions] and of [outcomes] speak of the strategy
    at position [i], in the state the loop had reached. *)
Lemma contributions_lookup ms : forall st i p,
  contributions ms st !! i = Some p ->
  exists metric sti,
    ms !! i = Some metric /\ p = produced metric sti /\
    outcomes ms st !! i = Some (outcome_of metric sti).
Proof.
  induction ms as [|metric ms IH]; intros st i p H; [discriminate|].
  destruct i as [|i]; cbn in H.
  - injection H as <-. now exists metric, st.
  - destruct (IH _ _ _ H) as (m & sti & H1 & H2 & H3). now exists m, sti.
Qed.

Lemma outcomes_lookup ms : forall st i o,
  outcomes ms st !! i = Some o ->
  exists metric sti,
    ms !! i = Some metric /\ o = outcome_of metric sti /\
    contributions ms st !! i = Some (produced metric sti).
Proof.
  induction ms as [|metric ms IH]; intros st i o H; [discriminate|].
  destruct i as [|i]; cbn in H.
  - injection H as <-. now exists metric, st.
  - destruct (IH _ _ _ H) as (m & sti & H1 & H2 & H3). now exists m, sti.
Qed.

(** The loop adds one turn per strategy, in the order of the list, each
    turn whole before the next starts; it stops early only on an exception
    that leaves [evaluate]. *)
Lemma loop_trace ms : forall st,
  exists segs,
    trace (snd (for_each ms evaluate_metric st)) = trace st ++ concat segs /\
    Forall2 turn (take (length segs) ms) segs /\
    (forall u, fst (for_each ms evaluate_metric st) = Ok u -> length segs = length ms).
Proof.
  induction ms as [|metric ms IH]; intros st.
  - exists []. cbn. rewrite app_nil_r. repeat split. constructor.
  - destruct (evaluate_metric_trace metric st) as (body & Hf & Ht).
    assert (Hturn : turn metric (started metric :: body ++ closing metric (outcome_of metric st)))
      by (now exists body, (outcome_of metric st)).
    destruct (evaluate_metric metric st) as [[[]|e] st1] eqn:E; cbn [snd] in Ht.
    + rewrite (for_each_cons_Ok _ _ _ _ _ E).
      destruct (IH st1) as (segs & Hs & Hall & Hlen).
      exists ((started metric :: body ++ closing metric (outcome_of metric st)) :: segs).
      split; [|split].
      * rewrite Hs, Ht. cbn [concat]. now rewrite <- app_assoc.
      * cbn. now constructor.
      * intros u Hu. cbn. f_equal. now apply (Hlen u).
    + rewrite (for_each_cons_Raise _ _ _ _ _ _ E). cbn [fst snd].
      exists [started metric :: body ++ closing metric (outcome_of metric st)].
      split; [|split].
      * rewrite Ht. cbn [concat]. now rewrite app_nil_r.
      * cbn. repeat constructor. exact Hturn.
      * discriminate.
Qed.

(** With classes that raise only instances of [Exception] whose [__str__]
    returns, the loop returns. *)
Lemma loop_returns ms : forall st,
  (forall metric, In metric ms -> raises_only_loggable (m_class metric)) ->
  fst (for_each ms evaluate_metric st) = Ok tt.
Proof.
  induction ms as [|metric ms IH]; intros st Hcls; [reflexivity|].
  pose proof (evaluate_metric_result metric st) as Hr.
  pose proof (outcome_never_escapes metric st (Hcls metric (or_introl eq_refl))) as Hne.
  destruct (evaluate_metric metric st) as [[[]|e] st1] eqn:E; cbn [fst] in Hr.
  - rewrite (for_each_cons_Ok _ _ _ _ _ E). apply IH.
    intros m Hm. apply Hcls. now right.
  - destruct (outcome_of metric st) as [| |e']; try discriminate.
    now destruct (Hne e').
Qed.

Lemma unrecognized_iff metric :
  recognized metric = None <-> forall c, isinstance metric c = false.
Proof.
  unfold recognized. split.
  - intros H c. apply (find_none _ _ H). destruct c; cbn; tauto.
  - intros H. cbn [List.find dispatch_chain]. now rewrite !H.
Qed.

Lemma last_contribution_is_Some k l i v :
  l !! i = Some (Some (k, v)) -> is_Some (last_contribution k l).
Proof.
  revert i. induction l as [|p l IH]; intros i Hi; [discriminate|].
  cbn. destruct i as [|i]; cbn in Hi.
  - injection Hi as ->. destruct (last_contribution k l); [eauto|].
    rewrite String.eqb_refl. eauto.
  - destruct (IH i Hi) as [v' ->]. eauto.
Qed.

(** When [evaluate] returns, the report is what the loop left in [results],
    started from the empty dict. *)
Lemma evaluate_returns_inv self st report st' :
  evaluate self st = (Ok report, st') ->
  for_each (metrics self) evaluate_metric (fresh st) = (Ok tt, st') /\
  report = results st'.
Proof.
  rewrite evaluate_unfold.
  destruct (for_each _ _ _) as [[[]|e] st1]; [|discriminate].
  now intros [= <- <-].
Qed.

Lemma report_lookup self st report st' :
  evaluate self st = (Ok report, st') ->
  forall k, report !! k = last_contribution k (contributions (metrics self) (fresh st)).
Proof.
  intros H k. destruct (evaluate_returns_inv _ _ _ _ H) as (Hloop & ->).
  rewrite (loop_results _ _ _ Hloop k).
  destruct (last_contribution _ _); [reflexivity|]. apply lookup_empty.
Qed.

(** A recognized strategy whose protocol completed leaves an entry under
    the key of its kind in the report. *)
Lemma completed_key_present self st report st' i metric c :
  evaluate self st = (Ok report, st') ->
  metrics self !! i = Some metric ->
  recognized metric = Some c ->
  outcomes (metrics self) (fresh st) !! i = Some Completed ->
  is_Some (report !! result_key c).
Proof.
  intros H Hm Hc Ho.
  destruct (outcomes_lookup _ _ _ _ Ho) as (metric' & sti & Hm' & Heq & Hcontr).
  assert (metric' = metric) as -> by congruence.
  destruct (completed_produced metric sti c Hc) as [v Hv]; [now symmetry|].
  rewrite Hv in Hcontr. rewrite (report_lookup _ _ _ _ H).
  now apply (last_contribution_is_Some _ _ i v).
Qed.

(** ** The binder loop *)

Lemma calls_app evs1 evs2 : calls (evs1 ++ evs2) = calls evs1 ++ calls evs2.
Proof.
  induction evs1 as [|[o name args r|lvl msg] evs1 IH]; cbn; [reflexivity| |exact IH].
  now rewrite IH.
Qed.

(** One step of the binder on a strategy with [set_model]. *)
Lemma bind_one handle metric st :
  wants_model metric = true ->
  exists f r a',
    cls_methods (m_class metric) "set_model" = Some f /\
    f [handle] (heap st (m_id metric)) = (r, a') /\
    (call metric "set_model" [handle] ;;; ret tt) st =
    (match r with Ok _ => Ok tt | Raise e => Raise e end,
     mkState (upd (heap st) (m_id metric) a') (results st)
             (trace st ++ [ECall (m_id metric) "set_model" [handle] r])).
Proof.
  unfold wants_model, hasattr, call, bind, method, invoke, ret.
  destruct (cls_methods (m_class metric) "set_model") as [f|]; [intros _|discriminate].
  destruct (f [handle] (heap st (m_id metric))) as [r a'] eqn:E.
  exists f, r, a'. split; [reflexivity|]. split; [exact E|]. now destruct r.
Qed.

(** The binder calls [set_model] with the shared handle on the strategies
    that have it, in list order, until the list ends or a call raises. *)
Lemma binder_loop_spec handle ms : forall st,
  exists evs,
    trace (snd (binder_loop (mkEvaluator handle ms) st)) = trace st ++ evs /\
    results (snd (binder_loop (mkEvaluator handle ms) st)) = results st /\
    match fst (binder_loop (mkEvaluator handle ms) st) with
    | Ok _ =>
        calls evs = map (binding_call handle) (List.filter wants_model ms) /\
        Forall returned_normally evs
    | Raise e =>
        (exists evs0 o, evs = evs0 ++ [ECall o "set_model" [handle] (Raise e)]) /\
        exists rest, map (binding_call handle) (List.filter wants_model ms) = calls evs ++ rest
    end.
Proof.
  unfold binder_loop. cbn [metrics model].
  induction ms as [|metric ms IH]; intros st.
  - exists []. cbn. rewrite app_nil_r. repeat split. constructor.
  - cbn [for_each List.filter]. fold (wants_model metric).
    destruct (wants_model metric) eqn:Hw.
    + destruct (bind_one handle metric st Hw) as (f & r & a' & _ & _ & Hstep).
      destruct r as [v|e].
      * rewrite (bind_Ok _ _ _ _ _ Hstep).
        destruct (IH (mkState (upd (heap st) (m_id metric) a') (results st)
                        (trace st ++ [ECall (m_id metric) "set_model" [handle] (Ok v)])))
          as (evs & Ht & Hr & Hres).
        exists (ECall (m_id metric) "set_model" [handle] (Ok v) :: evs).
        split; [|split].
        -- rewrite Ht. cbn. now rewrite <- app_assoc.
        -- exact Hr.
        -- destruct (fst _).
           ++ destruct Hres as (Hc & Hn). split; [cbn; now rewrite Hc | now constructor].
           ++ destruct Hres as ((evs0 & o & ->) & rest & Hrest). split.
              ** now exists (ECall (m_id metric) "set_model" [handle] (Ok v) :: evs0), o.
              ** exists rest. cbn. now rewrite Hrest.
      * rewrite (bind_Raise _ _ _ _ _ Hstep). cbn [fst snd].
        exists [ECall (m_id metric) "set_model" [handle] (Raise e)].
        repeat split.
        -- now exists [], (m_id metric).
        -- now exists (map (binding_call handle) (List.filter wants_model ms)).
    + assert (Hstep : ret tt st = (Ok tt, st)) by reflexivity.
      rewrite (bind_Ok _ _ _ _ _ Hstep). apply IH.
Qed.

(** No turn of [evaluate] holds a [set_model] call. *)
Lemma turn_binds_nothing metric seg o args res :
  turn metric seg -> ~ In (ECall o "set_model" args res) seg.
Proof.
  intros (body & oc & Hf & ->) [Hin|Hin]; [discriminate|].
  apply in_app_or in Hin as [Hin|Hin].
  - rewrite Forall_forall in Hf. apply list_elem_of_In, Hf in Hin.
    destruct Hin as (_ & Hname). cbn in Hname.
    repeat (destruct Hname as [Hname|Hname]; [discriminate|]). exact Hname.
  - destruct oc; cbn in Hin; repeat (destruct Hin as [Hin|Hin]; [discriminate|]); exact Hin.
Qed.

Lemma turns_of ms segs :
  Forall2 turn ms segs -> forall seg, In seg segs -> exists metric, turn metric seg.
Proof.
  induction 1 as [|metric seg ms segs Hturn _ IH]; intros seg' Hin; [destruct Hin|].
  destruct Hin as [<-|Hin]; [now exists metric | now apply IH].
Qed.

(** ** Steps that leave the state alone, and inversion of steps *)

Lemma stateless_ret {A} (a : A) : stateless (ret a).
Proof. now exists (Ok a). Qed.

Lemma stateless_raise {A} e : stateless (@raise A e).
Proof. now exists (Raise e). Qed.

Lemma stateless_bind {A B} (c : M A) (k : A -> M B) :
  stateless c -> (forall a, stateless (k a)) -> stateless (bind c k).
Proof.
  intros [[a|e] Hc] Hk.
  - destruct (Hk a) as [r Hr]. exists r. intros s. unfold bind. now rewrite Hc.
  - exists (Raise e). intros s. unfold bind. now rewrite Hc.
Qed.

Lemma stateless_field v name : stateless (field v name).
Proof.
  unfold field. destruct v; try apply stateless_raise.
  destruct (assoc name fields); [apply stateless_ret | apply stateless_raise].
Qed.

Lemma stateless_dunder_dict v : stateless (dunder_dict v).
Proof. destruct v; first [apply stateless_ret | apply stateless_raise]. Qed.

Lemma stateless_dot_dict v : stateless (dot_dict v).
Proof.
  destruct v; try apply stateless_raise.
  apply (stateless_ret (model_dump (VObj cls fields))).
Qed.

Lemma stateless_iter v : stateless (iter v).
Proof. destruct v; first [apply stateless_ret | apply stateless_raise]. Qed.

Lemma stateless_py_len v : stateless (py_len v).
Proof. destruct v; first [apply stateless_ret | apply stateless_raise]. Qed.

Lemma stateless_py_truediv a b : stateless (py_truediv a b).
Proof.
  unfold py_truediv. destruct (Z.eqb b 0); [apply stateless_raise | apply stateless_ret].
Qed.

Lemma stateless_comprehension f l :
  (forall x, stateless (f x)) -> stateless (comprehension f l).
Proof.
  intros Hf. induction l as [|x l IH]; cbn.
  - apply stateless_ret.
  - apply stateless_bind; [apply Hf|]. intros y.
    apply stateless_bind; [exact IH|]. intros ys. apply stateless_ret.
Qed.

Lemma stateless_dicts_of v : stateless (dicts_of v).
Proof.
  unfold dicts_of. apply stateless_bind; [apply stateless_iter|]. intros l.
  apply stateless_bind; [apply stateless_comprehension, stateless_dot_dict|].
  intros ds. apply stateless_ret.
Qed.

Lemma stateless_inv_Ok {A} (c : M A) st a st1 :
  stateless c -> c st = (Ok a, st1) -> st1 = st /\ yields c a.
Proof.
  intros [r Hc] H. rewrite Hc in H. injection H as -> <-. now split.
Qed.

Lemma stateless_cases {A} (c : M A) st :
  stateless c ->
  (exists a, yields c a /\ c st = (Ok a, st)) \/ (exists e, c st = (Raise e, st)).
Proof.
  intros [[a|e] Hc]; [left; exists a | right; exists e]; [split|]; auto.
Qed.

Lemma bind_inv_Ok {A B} (c : M A) (k : A -> M B) st b st' :
  bind c k st = (Ok b, st') ->
  exists a st1, c st = (Ok a, st1) /\ k a st1 = (Ok b, st').
Proof.
  unfold bind. destruct (c st) as [[a|e] st1]; [|discriminate].
  intros H. now exists a, st1.
Qed.

Lemma invoke_eq metric name f args st :
  invoke metric name f args st =
  (fst (f args (heap st (m_id metric))),
   called st metric name args (fst (f args (heap st (m_id metric))))
          (snd (f args (heap st (m_id metric))))).
Proof. unfold invoke, called. now destruct (f args _). Qed.

Lemma method_inv_Ok metric name st f st1 :
  method metric name st = (Ok f, st1) ->
  st1 = st /\ cls_methods (m_class metric) name = Some f.
Proof.
  unfold method. destruct (cls_methods _ _); [|discriminate].
  now intros [= -> <-].
Qed.

Lemma attr_inv_Ok metric name st v st1 :
  attr metric name st = (Ok v, st1) ->
  st1 = st /\ assoc name (heap st (m_id metric)) = Some v.
Proof.
  unfold attr. destruct (assoc _ _); [|discriminate]. now intros [= -> <-].
Qed.

Lemma call_inv_Ok metric name args st v st1 :
  call metric name args st = (Ok v, st1) ->
  exists f,
    cls_methods (m_class metric) name = Some f /\
    fst (f args (heap st (m_id metric))) = Ok v /\
    st1 = called st metric name args (Ok v) (snd (f args (heap st (m_id metric)))).
Proof.
  unfold call. intros H. apply bind_inv_Ok in H as (f & st0 & Hm & Hi).
  apply method_inv_Ok in Hm as (-> & Hf). rewrite invoke_eq in Hi.
  injection Hi as Hr <-. exists f. rewrite Hr. now repeat split.
Qed.

Lemma upd_same h o a : upd h o a o = a.
Proof. unfold upd. now rewrite Nat.eqb_refl. Qed.

Lemma yields_inj {A} (c : M A) a b : yields c a -> yields c b -> a = b.
Proof.
  intros Ha Hb. specialize (Ha (mkState (fun _ => []) ∅ [])).
  rewrite Hb in Ha. now injection Ha.
Qed.

(** The [Faithfulness] branch, when it completes. *)
Lemma faithfulness_branch metric st u st1 :
  isinstance metric Faithfulness = true ->
  evaluate_dispatch metric st = (Ok u, st1) ->
  exists evs entry,
    faithfulness_protocol (m_id metric) evs entry /\
    trace st1 = trace st ++ evs /\
    results st1 = <["faithfulness" := entry]> (results st).
Proof.
  intros Hisa H. unfold evaluate_dispatch in H. rewrite Hisa in H.
  apply bind_inv_Ok in H as (claims & s1 & H1 & H).
  apply call_inv_Ok in H1 as (f1 & _ & _ & ->).
  apply bind_inv_Ok in H as (truths & s2 & H2 & H).
  apply call_inv_Ok in H2 as (f2 & _ & _ & ->).
  apply bind_inv_Ok in H as (f3 & s3 & H3 & H).
  apply method_inv_Ok in H3 as (-> & _).
  apply bind_inv_Ok in H as (cc & s4 & H4 & H).
  apply (stateless_inv_Ok _ _ _ _ (stateless_field _ _)) in H4 as (-> & Hcc).
  apply bind_inv_Ok in H as (verdicts & s5 & H5 & H).
  rewrite invoke_eq in H5. injection H5 as Hr5 <-. rewrite Hr5 in H.
  apply bind_inv_Ok in H as (f6 & s6 & H6 & H).
  apply method_inv_Ok in H6 as (-> & _).
  apply bind_inv_Ok in H as (tt' & s7 & H7 & H).
  apply (stateless_inv_Ok _ _ _ _ (stateless_field _ _)) in H7 as (-> & Htt).
  apply bind_inv_Ok in H as (reason & s8 & H8 & H).
  rewrite invoke_eq in H8. injection H8 as Hr8 <-. rewrite Hr8 in H.
  apply bind_inv_Ok in H as (cc' & s9 & H9 & H).
  apply (stateless_inv_Ok _ _ _ _ (stateless_field _ _)) in H9 as (-> & Hcc').
  apply bind_inv_Ok in H as (tt'' & s10 & H10 & H).
  apply (stateless_inv_Ok _ _ _ _ (stateless_field _ _)) in H10 as (-> & Htt').
  apply bind_inv_Ok in H as (vv & s11 & H11 & H).
  apply (stateless_inv_Ok _ _ _ _ (stateless_field _ _)) in H11 as (-> & Hvv).
  apply bind_inv_Ok in H as (l & s12 & H12 & H).
  apply (stateless_inv_Ok _ _ _ _ (stateless_iter _)) in H12 as (-> & Hl).
  apply bind_inv_Ok in H as (ds & s13 & H13 & H).
  apply (stateless_inv_Ok _ _ _ _
           (stateless_comprehension _ _ stateless_dunder_dict)) in H13 as (-> & Hds).
  apply bind_inv_Ok in H as (rs & s14 & H14 & H).
  apply (stateless_inv_Ok _ _ _ _ (stateless_field _ _)) in H14 as (-> & Hrs).
  rewrite <- (yields_inj _ _ _ Hcc Hcc'), <- (yields_inj _ _ _ Htt Htt') in H.
  unfold store_result in H. injection H as _ <-.
  eexists. eexists. split; [|split].
  - exists claims, truths, verdicts, reason, cc, tt', vv, l, ds, rs.
    repeat split; try eassumption; reflexivity.
  - cbn. rewrite <- !app_assoc. reflexivity.
  - reflexivity.
Qed.

(** ** The [faithfulness] entry and the trace *)

Lemma recognized_isinstance metric c :
  recognized metric = Some c -> isinstance metric c = true.
Proof. unfold recognized. intros H. now apply find_some in H. Qed.

Lemma faithfulness_backed_step ms metric st :
  In metric ms ->
  faithfulness_backed ms st ->
  faithfulness_backed ms (snd (evaluate_metric metric st)).
Proof.
  intros Hin Hinv entry.
  rewrite evaluate_metric_results.
  destruct (evaluate_metric_trace metric st) as (body & _ & Ht).
  assert (Hkeep : results st !! "faithfulness" = Some entry ->
            exists metric0 pre evs post,
              In metric0 ms /\ isinstance metric0 Faithfulness = true /\
              trace (snd (evaluate_metric metric st)) = pre ++ evs ++ post /\
              faithfulness_protocol (m_id metric0) evs entry).
  { intros Hk. destruct (Hinv entry Hk) as (m0 & pre & evs & post & H1 & H2 & H3 & H4).
    exists m0, pre, evs, (post ++ started metric :: body ++ closing metric (outcome_of metric st)).
    repeat split; try assumption. rewrite Ht, H3, <- !app_assoc. reflexivity. }
  destruct (produced metric st) as [[k v]|] eqn:Hp; cbn [with_entry]; [|exact Hkeep].
  destruct (produced_inv _ _ _ _ Hp) as (c & Hc & -> & _ & Hcompl).
  destruct (String.eqb_spec (result_key c) "faithfulness") as [Heq|Hne].
  - rewrite Heq, lookup_insert_eq. intros [= <-].
    apply (result_key_inj c Faithfulness) in Heq as ->.
    pose proof (recognized_isinstance _ _ Hc) as Hisa.
    unfold produced in Hp. rewrite Hc in Hp.
    pose proof (evaluate_try_unfold metric st) as Hu.
    destruct (evaluate_dispatch metric (logged st (started metric))) as [[u|e] sd] eqn:E;
      rewrite Hu in Hp; [|discriminate].
    destruct (faithfulness_branch _ _ _ _ Hisa E) as (evs & entry & Hprot & Htr & Hres).
    cbn [results logged result_key] in Hp. rewrite Hres, lookup_insert_eq in Hp.
    injection Hp as <-.
    exists metric, (trace st ++ [started metric]), evs, [completed metric].
    repeat split; try assumption.
    rewrite (evaluate_metric_completed _ _ _ Hu). cbn. rewrite Htr. cbn.
    now rewrite <- !app_assoc.
  - rewrite lookup_insert_ne by exact Hne. exact Hkeep.
Qed.

Lemma faithfulness_backed_loop ms0 : forall ms st,
  (forall metric, In metric ms0 -> In metric ms) ->
  faithfulness_backed ms st ->
  faithfulness_backed ms (snd (for_each ms0 evaluate_metric st)).
Proof.
  induction ms0 as [|metric ms0 IH]; intros ms st Hsub Hinv; [exact Hinv|].
  pose proof (faithfulness_backed_step ms metric st (Hsub metric (or_introl eq_refl)) Hinv)
    as Hstep.
  destruct (evaluate_metric metric st) as [[[]|e] st1] eqn:E; cbn [snd] in Hstep.
  - rewrite (for_each_cons_Ok _ _ _ _ _ E). apply IH; [|exact Hstep].
    intros m Hm. apply Hsub. now right.
  - now rewrite (for_each_cons_Raise _ _ _ _ _ _ E).
Qed.

(** ** The [ContextualRelevancy] branch on every path *)

Lemma bind_assoc {A B C} (c : M A) (f : A -> M B) (k : B -> M C) st :
  bind (bind c f) k st = bind c (fun x => bind (f x) k) st.
Proof. unfold bind. destruct (c st) as [[a|e] st1]; reflexivity. Qed.

Lemma method_cases metric name st :
  (exists f, cls_methods (m_class metric) name = Some f /\ method metric name st = (Ok f, st)) \/
  (exists e, method metric name st = (Raise e, st)).
Proof.
  unfold method. destruct (cls_methods _ _) as [f|]; [left; now exists f | right; eauto].
Qed.

Lemma attr_cases metric name st :
  (exists v, assoc name (heap st (m_id metric)) = Some v /\ attr metric name st = (Ok v, st)) \/
  (exists e, attr metric name st = (Raise e, st)).
Proof.
  unfold attr. destruct (assoc _ _) as [v|]; [left; now exists v | right; eauto].
Qed.

Lemma invoke_cases metric name f args st contexts :
  cls_methods (m_class metric) name = Some f ->
  keeps_contexts (m_class metric) ->
  assoc "retrieval_contexts" (heap st (m_id metric)) = Some contexts ->
  exists r a',
    invoke metric name f args st = (r, called st metric name args r a') /\
    assoc "retrieval_contexts" (heap (called st metric name args r a') (m_id metric)) =
      Some contexts.
Proof.
  intros Hf Hkeep Hctx. rewrite invoke_eq.
  exists (fst (f args (heap st (m_id metric)))), (snd (f args (heap st (m_id metric)))).
  split; [reflexivity|]. cbn. rewrite upd_same, (Hkeep _ _ _ _ Hf). exact Hctx.
Qed.

Lemma py_truediv_cases a b st :
  (b <> 0%Z /\ py_truediv a b st = (Ok (Qred (inject_Z a / inject_Z b)), st)) \/
  (exists e, py_truediv a b st = (Raise e, st)).
Proof.
  unfold py_truediv. destruct (Z.eqb_spec b 0); [right; eauto | left; now split].
Qed.

(** The score expression returns the score of lines 102-103, or raises. *)
Lemma relevancy_score_cases metric irrelevancies contexts st :
  assoc "retrieval_contexts" (heap st (m_id metric)) = Some contexts ->
  (exists score,
      score_of irrelevancies contexts score /\
      relevancy_score metric irrelevancies st = (Ok score, st)) \/
  (exists e, relevancy_score metric irrelevancies st = (Raise e, st)).
Proof.
  intros Hctx. unfold relevancy_score, score_of.
  destruct (py_not irrelevancies); [left; now exists (VFloat 1%Q)|].
  destruct (stateless_cases _ st (stateless_py_len irrelevancies)) as [(k & Hk & Hs)|(e & Hs)];
    [rewrite (bind_Ok _ _ _ _ _ Hs) | rewrite (bind_Raise _ _ _ _ _ Hs); right; eauto].
  clear Hs.
  destruct (attr_cases metric "retrieval_contexts" st) as [(c & Hc & Hs)|(e & Hs)];
    [rewrite (bind_Ok _ _ _ _ _ Hs) | rewrite (bind_Raise _ _ _ _ _ Hs); right; eauto].
  clear Hs. rewrite Hctx in Hc. injection Hc as <-.
  destruct (stateless_cases _ st (stateless_py_len contexts)) as [(n & Hn & Hs)|(e & Hs)];
    [rewrite (bind_Ok _ _ _ _ _ Hs) | rewrite (bind_Raise _ _ _ _ _ Hs); right; eauto].
  clear Hs.
  destruct (py_truediv_cases k n st) as [(Hn0 & Hs)|(e & Hs)];
    [rewrite (bind_Ok _ _ _ _ _ Hs) | rewrite (bind_Raise _ _ _ _ _ Hs); right; eauto].
  left. eexists. split; [|reflexivity]. now exists k, n.
Qed.

Lemma recognized_ContextualRelevancy metric :
  recognized metric = Some ContextualRelevancy ->
  isinstance metric Faithfulness = false /\
  isinstance metric AnswerRelevancy = false /\
  isinstance metric Bias = false /\
  isinstance metric ContextualRelevancy = true.
Proof.
  intros H. pose proof (recognized_isinstance _ _ H) as Hcr.
  unfold recognized in H. cbn [List.find dispatch_chain] in H.
  destruct (isinstance metric Faithfulness); [discriminate|].
  destruct (isinstance metric AnswerRelevancy); [discriminate|].
  destruct (isinstance metric Bias); [discriminate|].
  now repeat split.
Qed.

(** Closes the case where the branch raised before the rationale request. *)
Ltac not_requested :=
  left; split; [eexists; reflexivity|];
  eexists; split;
  [ first [ symmetry; apply app_nil_r
          | unfold called; cbn; rewrite <- ?app_assoc; reflexivity ]
  | intros ? ? Hin; cbn in Hin; intuition discriminate ].

(** The [ContextualRelevancy] branch on every path: it raises before the
    rationale request, or it makes its four calls with the score of lines
    102-103 and, if it completes, writes the verdicts and the rationale. *)
Lemma contextual_relevancy_branch metric st contexts :
  recognized metric = Some ContextualRelevancy ->
  keeps_contexts (m_class metric) ->
  assoc "retrieval_contexts" (heap st (m_id metric)) = Some contexts ->
  branch_outcome metric contexts st (evaluate_dispatch metric st).
Proof.
  intros Hrec Hkeep Hctx.
  destruct (recognized_ContextualRelevancy _ Hrec) as (HF & HA & HB & HC).
  unfold evaluate_dispatch. rewrite HF, HA, HB, HC.
  (* get_irrelevancies *)
  destruct (method_cases metric "get_irrelevancies" st) as [(f1 & Hf1 & Hs)|(e & Hs)];
    [rewrite (bind_Ok _ _ _ _ _ Hs) | rewrite (bind_Raise _ _ _ _ _ Hs); not_requested].
  clear Hs.
  destruct (attr_cases metric "query" st) as [(query & _ & Hs)|(e & Hs)];
    [rewrite (bind_Ok _ _ _ _ _ Hs) | rewrite (bind_Raise _ _ _ _ _ Hs); not_requested].
  clear Hs.
  destruct (attr_cases metric "retrieval_contexts" st) as [(c1 & Hc1 & Hs)|(e & Hs)];
    [rewrite (bind_Ok _ _ _ _ _ Hs) | rewrite (bind_Raise _ _ _ _ _ Hs); not_requested].
  clear Hs. rewrite Hctx in Hc1. injection Hc1 as <-.
  destruct (invoke_cases metric "get_irrelevancies" f1 [query; contexts] st contexts
              Hf1 Hkeep Hctx) as (r1 & a1 & Hs & Hctx1).
  destruct r1 as [irrelevancies|e];
    [rewrite (bind_Ok _ _ _ _ _ Hs) | rewrite (bind_Raise _ _ _ _ _ Hs); not_requested].
  clear Hs.
  (* set_irrelevancies *)
  unfold call at 1. rewrite bind_assoc.
  match goal with |- context [bind _ _ ?s] => set (s1 := s) in * end.
  destruct (method_cases metric "set_irrelevancies" s1) as [(f2 & Hf2 & Hs)|(e & Hs)];
    [rewrite (bind_Ok _ _ _ _ _ Hs) | rewrite (bind_Raise _ _ _ _ _ Hs); subst s1; not_requested].
  clear Hs.
  destruct (invoke_cases metric "set_irrelevancies" f2 [irrelevancies] s1 contexts
              Hf2 Hkeep Hctx1) as (r2 & a2 & Hs & Hctx2).
  destruct r2 as [r_set|e];
    [rewrite (bind_Ok _ _ _ _ _ Hs) | rewrite (bind_Raise _ _ _ _ _ Hs); subst s1; not_requested].
  clear Hs.
  (* get_verdicts *)
  match goal with |- context [bind _ _ ?s] => set (s2 := s) in * end.
  destruct (method_cases metric "get_verdicts" s2) as [(f3 & Hf3 & Hs)|(e & Hs)];
    [rewrite (bind_Ok _ _ _ _ _ Hs)
    | rewrite (bind_Raise _ _ _ _ _ Hs); subst s2 s1; not_requested].
  clear Hs.
  destruct (attr_cases metric "query" s2) as [(query' & _ & Hs)|(e & Hs)];
    [rewrite (bind_Ok _ _ _ _ _ Hs)
    | rewrite (bind_Raise _ _ _ _ _ Hs); subst s2 s1; not_requested].
  clear Hs.
  destruct (attr_cases metric "retrieval_contexts" s2) as [(c2 & Hc2 & Hs)|(e & Hs)];
    [rewrite (bind_Ok _ _ _ _ _ Hs)
    | rewrite (bind_Raise _ _ _ _ _ Hs); subst s2 s1; not_requested].
  clear Hs. rewrite Hctx2 in Hc2. injection Hc2 as <-.
  destruct (invoke_cases metric "get_verdicts" f3 [query'; contexts] s2 contexts
              Hf3 Hkeep Hctx2) as (r3 & a3 & Hs & Hctx3).
  destruct r3 as [verdicts|e];
    [rewrite (bind_Ok _ _ _ _ _ Hs)
    | rewrite (bind_Raise _ _ _ _ _ Hs); subst s2 s1; not_requested].
  clear Hs.
  match goal with |- context [bind _ _ ?s] => set (s3 := s) in * end.
  (* the score *)
  destruct (relevancy_score_cases metric irrelevancies contexts s3 Hctx3)
    as [(score & Hscore & Hs)|(e & Hs)];
    [rewrite (bind_Ok _ _ _ _ _ Hs)
    | rewrite (bind_Raise _ _ _ _ _ Hs); subst s3 s2 s1; not_requested].
  clear Hs.
  (* get_reason *)
  unfold call at 1. rewrite bind_assoc.
  destruct (method_cases metric "get_reason" s3) as [(f4 & Hf4 & Hs)|(e & Hs)];
    [rewrite (bind_Ok _ _ _ _ _ Hs)
    | rewrite (bind_Raise _ _ _ _ _ Hs); subst s3 s2 s1; not_requested].
  clear Hs.
  destruct (invoke_cases metric "get_reason" f4 [irrelevancies; score] s3 contexts
              Hf4 Hkeep Hctx3) as (r4 & a4 & Hs & _).
  right. exists query, irrelevancies, r_set, query', verdicts, score, r4.
  assert (Htrace : trace (called s3 metric "get_reason" [irrelevancies; score] r4 a4) =
            trace st ++
            [ECall (m_id metric) "get_irrelevancies" [query; contexts] (Ok irrelevancies);
             ECall (m_id metric) "set_irrelevancies" [irrelevancies] (Ok r_set);
             ECall (m_id metric) "get_verdicts" [query'; contexts] (Ok verdicts);
             ECall (m_id metric) "get_reason" [irrelevancies; score] r4]).
  { subst s3 s2 s1. unfold called. cbn. now rewrite <- !app_assoc. }
  assert (Hresults : results (called s3 metric "get_reason" [irrelevancies; score] r4 a4) =
            results st) by reflexivity.
  destruct r4 as [reason|e];
    [rewrite (bind_Ok _ _ _ _ _ Hs)
    | rewrite (bind_Raise _ _ _ _ _ Hs); now repeat split].
  clear Hs.
  match goal with |- context [bind _ _ ?s] => set (s4 := s) in * end.
  destruct (stateless_cases _ s4 (stateless_field verdicts "verdicts"))
    as [(vv & Hvv & Hs)|(e & Hs)];
    [rewrite (bind_Ok _ _ _ _ _ Hs)
    | rewrite (bind_Raise _ _ _ _ _ Hs); now repeat split].
  clear Hs.
  destruct (stateless_cases _ s4 (stateless_dicts_of vv)) as [(ds & Hds & Hs)|(e & Hs)];
    [rewrite (bind_Ok _ _ _ _ _ Hs)
    | rewrite (bind_Raise _ _ _ _ _ Hs); now repeat split].
  clear Hs.
  destruct (stateless_cases _ s4 (stateless_dot_dict reason)) as [(rd & Hrd & Hs)|(e & Hs)];
    [rewrite (bind_Ok _ _ _ _ _ Hs)
    | rewrite (bind_Raise _ _ _ _ _ Hs); now repeat split].
  clear Hs.
  assert (rd = model_dump reason) as ->.
  { specialize (Hrd s4). destruct reason; try discriminate. now injection Hrd as <-. }
  split; [exact Htrace|]. split; [exact Hscore|].
  intros u _. exists reason, vv, ds.
  repeat split; try assumption; cbn; now rewrite Hresults.
Qed.

(** [max(0, x)] is the larger of [0] and [x]. *)
Lemma py_max0_float y : exists x, py_float (py_max0 y) = Some x /\ Qeq x (Qmax 0 y).
Proof.
  unfold py_max0. destruct (Qlt_le_dec 0 y) as [Hlt|Hle]; cbn.
  - exists y. split; [reflexivity|]. symmetry. apply Q.max_r. now apply Qlt_le_weak.
  - exists (inject_Z 0). split; [reflexivity|]. symmetry. now apply Q.max_l.
Qed.

Lemma yields_py_len_list l k : yields (py_len (VList l)) k -> k = Z.of_nat (length l).
Proof.
  intros H. specialize (H (mkState (fun _ => []) ∅ [])). cbn in H. now injection H.
Qed.

(** Finds an event in the four calls of the branch. *)
Ltac among_four Hin :=
  cbn in Hin;
  repeat (destruct Hin as [Hin|Hin]; [try discriminate Hin|]); try contradiction.

(** ** What a turn reads, and what it assigns *)

Lemma heap_determined_stateless {A} (c : M A) : stateless c -> heap_determined c.
Proof.
  intros [res Hc] h. exists res, h, [], []. intros r t.
  rewrite Hc. cbn. now rewrite app_nil_r.
Qed.

Lemma heap_determined_ret {A} (a : A) : heap_determined (ret a).
Proof. apply heap_determined_stateless, stateless_ret. Qed.

Lemma heap_determined_bind {A B} (c : M A) (k : A -> M B) :
  heap_determined c -> (forall a, heap_determined (k a)) -> heap_determined (bind c k).
Proof.
  intros Hc Hk h. destruct (Hc h) as ([a|e] & h1 & ups1 & evs1 & H1).
  - destruct (Hk a h1) as (res2 & h2 & ups2 & evs2 & H2).
    exists res2, h2, (ups1 ++ ups2), (evs1 ++ evs2). intros r t.
    unfold bind. rewrite H1, H2. unfold assigned. now rewrite fold_left_app, app_assoc.
  - exists (Raise e), h1, ups1, evs1. intros r t. unfold bind. now rewrite H1.
Qed.

Lemma heap_determined_if {A} (b : bool) (c1 c2 : M A) :
  heap_determined c1 -> heap_determined c2 -> heap_determined (if b then c1 else c2).
Proof. now destruct b. Qed.

Lemma heap_determined_method metric name : heap_determined (method metric name).
Proof.
  intros h. unfold method.
  destruct (cls_methods (m_class metric) name) as [f|];
    eexists; exists h, [], []; intros r t; cbn; now rewrite app_nil_r.
Qed.

Lemma heap_determined_attr metric name : heap_determined (attr metric name).
Proof.
  intros h. unfold attr. cbn.
  destruct (assoc name (h (m_id metric)));
    eexists; exists h, [], []; intros r t; cbn; now rewrite app_nil_r.
Qed.

Lemma heap_determined_invoke metric name f args :
  heap_determined (invoke metric name f args).
Proof.
  intros h. unfold invoke. cbn.
  destruct (f args (h (m_id metric))) as [res a'].
  exists res, (upd h (m_id metric) a'), [], [ECall (m_id metric) name args res].
  reflexivity.
Qed.

Lemma heap_determined_call metric name args : heap_determined (call metric name args).
Proof.
  apply heap_determined_bind; [apply heap_determined_method|].
  intros f. apply heap_determined_invoke.
Qed.

Lemma heap_determined_emit e : heap_determined (emit e).
Proof. intros h. now exists (Ok tt), h, [], [e]. Qed.

Lemma heap_determined_store_result key v : heap_determined (store_result key v).
Proof.
  intros h. exists (Ok tt), h, [(key, v)], []. intros r t.
  unfold store_result. cbn. now rewrite app_nil_r.
Qed.

Lemma heap_determined_relevancy_score metric v :
  heap_determined (relevancy_score metric v).
Proof.
  unfold relevancy_score. apply heap_determined_if; [apply heap_determined_ret|].
  apply heap_determined_bind; [apply heap_determined_stateless, stateless_py_len|].
  intros k. apply heap_determined_bind; [apply heap_determined_attr|].
  intros c. apply heap_determined_bind; [apply heap_determined_stateless, stateless_py_len|].
  intros n.
  apply heap_determined_bind; [apply heap_determined_stateless, stateless_py_truediv|].
  intros q. apply heap_determined_ret.
Qed.

(** Discharges [heap_determined c] by following the shape of [c]. *)
Ltac by_heap :=
  repeat first
    [ apply heap_determined_relevancy_score
    | apply heap_determined_invoke
    | apply heap_determined_call
    | apply heap_determined_stateless;
      first [ apply stateless_field | apply stateless_iter | apply stateless_dot_dict
            | apply stateless_dicts_of
            | apply stateless_comprehension; intros ?;
              first [ apply stateless_dunder_dict | apply stateless_field ] ]
    | apply heap_determined_method
    | apply heap_determined_attr
    | apply heap_determined_store_result
    | apply heap_determined_emit
    | apply heap_determined_ret
    | apply heap_determined_if
    | apply heap_determined_bind; [|intros ?] ].

Lemma heap_determined_dispatch metric : heap_determined (evaluate_dispatch metric).
Proof. unfold evaluate_dispatch. by_heap. Qed.

Lemma heap_determined_evaluate_try metric :
  heap_determined (evaluate_try metric (cls_name (m_class metric))).
Proof.
  unfold evaluate_try, logger_info.
  apply heap_determined_bind; [apply heap_determined_emit|]. intros _.
  apply heap_determined_bind; [apply heap_determined_dispatch|]. intros _.
  apply heap_determined_emit.
Qed.

Lemma heap_determined_evaluate_metric metric : heap_determined (evaluate_metric metric).
Proof.
  intros h.
  destruct (heap_determined_evaluate_try metric h) as ([u|e] & h1 & ups & evs & H).
  - exists (Ok u), h1, ups, evs. intros r t.
    now rewrite evaluate_metric_unfold, H.
  - destruct (exc_is_Exception e) eqn:He; [destruct (exc_str_raises e) as [e'|] eqn:Hs|].
    + exists (Raise e'), h1, ups, evs. intros r t.
      now rewrite evaluate_metric_unfold, H, He, Hs.
    + exists (Ok tt), h1, ups, (evs ++ [failed metric e]). intros r t.
      rewrite evaluate_metric_unfold, H, He, Hs. unfold logged. cbn.
      now rewrite app_assoc.
    + exists (Raise e), h1, ups, evs. intros r t.
      now rewrite evaluate_metric_unfold, H, He.
Qed.

(** Assignments made on top of [r] are those made on top of the empty
    dict, laid over [r]. *)
Lemma assigned_union ups : forall m r, assigned ups (m ∪ r) = assigned ups m ∪ r.
Proof.
  induction ups as [|[k v] ups IH]; intros m r; [reflexivity|].
  unfold assigned in *. cbn. rewrite <- IH. f_equal. apply (insert_union_l m r k v).
Qed.

Lemma assigned_empty ups r : assigned ups r = assigned ups ∅ ∪ r.
Proof. rewrite <- assigned_union. now rewrite (left_id_L ∅ (∪)). Qed.

(** A computation that reads only the heap does to [results] what it does
    to an empty dict, on top of what was there. *)
Lemma heap_determined_fresh {A} (c : M A) st :
  heap_determined c ->
  fst (c st) = fst (c (fresh st)) /\
  results (snd (c st)) = results (snd (c (fresh st))) ∪ results st.
Proof.
  intros H. destruct st as [h r t]. destruct (H h) as (res & h' & ups & evs & Hc).
  unfold fresh. cbn. rewrite (Hc r t), (Hc ∅ t). cbn.
  split; [reflexivity | apply assigned_empty].
Qed.

(** A turn lays its assignments over what [results] held: a key it assigns
    takes the new value, the others keep theirs. *)
Lemma evaluate_metric_assigns metric st :
  results (snd (evaluate_metric metric st)) = assignments metric st ∪ results st.
Proof. apply heap_determined_fresh, heap_determined_evaluate_metric. Qed.

Lemma outcome_of_fresh metric st : outcome_of metric (fresh st) = outcome_of metric st.
Proof.
  unfold outcome_of.
  destruct (heap_determined_fresh _ st (heap_determined_evaluate_try metric)) as [-> _].
  reflexivity.
Qed.

(** What a turn assigns: one complete entry under the key of its kind when
    the strategy is recognized and its protocol completed. *)
Lemma assignments_inv metric st k v :
  assignments metric st !! k = Some v ->
  exists c, recognized metric = Some c /\ k = result_key c /\ complete_entry c v /\
            outcome_of metric st = Completed.
Proof.
  unfold assignments. rewrite evaluate_metric_results.
  destruct (produced metric (fresh st)) as [[k' v']|] eqn:E; cbn.
  - destruct (produced_inv _ _ _ _ E) as (c & Hc & -> & Hv & Ho).
    rewrite outcome_of_fresh in Ho.
    destruct (String.eqb_spec k (result_key c)) as [->|Hne].
    + rewrite lookup_insert_eq. intros [= <-]. now exists c.
    + rewrite lookup_insert_ne by congruence. now rewrite lookup_empty.
  - now rewrite lookup_empty.
Qed.

Lemma completed_assigns metric st c :
  recognized metric = Some c ->
  outcome_of metric st = Completed ->
  is_Some (assignments metric st !! result_key c).
Proof.
  intros Hc Ho. rewrite <- outcome_of_fresh in Ho.
  destruct (completed_produced _ _ _ Hc Ho) as [v Hv].
  unfold assignments. rewrite evaluate_metric_results, Hv. cbn.
  rewrite lookup_insert_eq. eauto.
Qed.

(** When the loop returns, every key holds the value last assigned to it, or
    what it held before the loop. *)
Lemma loop_assignments ms : forall st st',
  for_each ms evaluate_metric st = (Ok tt, st') ->
  forall k,
    results st' !! k =
    match last_assignment k (assignments_along ms st) with
    | Some v => Some v
    | None => results st !! k
    end.
Proof.
  induction ms as [|metric ms IH]; intros st st' H k.
  - cbn in H. injection H as <-. reflexivity.
  - destruct (evaluate_metric metric st) as [[[]|e] st1] eqn:E.
    + rewrite (for_each_cons_Ok _ _ _ _ _ E) in H.
      cbn [assignments_along last_assignment]. rewrite E. cbn [snd].
      rewrite (IH _ _ H k).
      destruct (last_assignment k (assignments_along ms st1)); [reflexivity|].
      pose proof (evaluate_metric_assigns metric st) as Hr. rewrite E in Hr. cbn in Hr.
      rewrite Hr. destruct (assignments metric st !! k) as [v|] eqn:Ek.
      * now apply lookup_union_Some_l.
      * now apply lookup_union_r.
    + rewrite (for_each_cons_Raise _ _ _ _ _ _ E) in H. discriminate.
Qed.

(** Position [i] of [assignments_along] speaks of the strategy at position
    [i], in the state the loop had reached. *)
Lemma assignments_along_lookup ms : forall st i metric,
  ms !! i = Some metric ->
  exists sti,
    assignments_along ms st !! i = Some (assignments metric sti) /\
    outcomes ms st !! i = Some (outcome_of metric sti).
Proof.
  induction ms as [|metric0 ms IH]; intros st i metric H; [discriminate|].
  destruct i as [|i]; cbn in H.
  - injection H as ->. now exists st.
  - apply (IH (snd (evaluate_metric metric0 st)) i metric H).
Qed.

Lemma last_assignment_Some k l v :
  last_assignment k l = Some v -> exists i m, l !! i = Some m /\ m !! k = Some v.
Proof.
  induction l as [|m l IH]; cbn; [discriminate|].
  destruct (last_assignment k l) as [v'|].
  - intros [= ->]. destruct (IH eq_refl) as (i & m' & Hi & Hm). now exists (S i), m'.
  - intros Hm. now exists 0, m.
Qed.

(** The last assignment to [k] is the one after which no other comes. *)
Lemma last_assignment_at k l : forall i m v,
  l !! i = Some m -> m !! k = Some v ->
  (forall j m', i < j -> l !! j = Some m' -> m' !! k = None) ->
  last_assignment k l = Some v.
Proof.
  induction l as [|m0 l IH]; intros i m v Hi Hv Hlast; [discriminate|].
  cbn. destruct i as [|i]; cbn in Hi.
  - injection Hi as ->.
    destruct (last_assignment k l) as [v'|] eqn:E; [|exact Hv].
    destruct (last_assignment_Some _ _ _ E) as (j & m' & Hj & Hm').
    rewrite (Hlast (S j) m') in Hm'; [discriminate | lia | exact Hj].
  - rewrite (IH i m v Hi Hv); [reflexivity|].
    intros j m' Hj Hl. apply (Hlast (S j) m'); [lia | exact Hl].
Qed.

(** ** The example classes *)

(** A run that is seen to return, with what it returned. *)
Lemma returned {A} (r : Res A * State) :
  is_Ok (fst r) = true -> exists a, r = (Ok a, snd r).
Proof. destruct r as [[a|e] st]; [now exists a | discriminate]. Qed.

(** Reads a hypothesis [methods l name = Some f] as the cases of [l]. *)
Ltac method_cases Hm :=
  cbn in Hm; unfold Examples.methods in Hm;
  repeat match type of Hm with
         | (if String.eqb ?n ?s then _ else _) = _ =>
             destruct (String.eqb n s); [injection Hm as <-|]
         end;
  try discriminate.

Lemma BLEU_raises_only_loggable : raises_only_loggable Examples.BLEU_class.
Proof. intros name f args a e Hm Hr. method_cases Hm. Qed.

Lemma BLEU_broken_raises_only_loggable :
  raises_only_loggable Examples.BLEU_broken_class.
Proof.
  intros name f args a e Hm Hr. method_cases Hm.
  cbn in Hr. now injection Hr as <-.
Qed.

Lemma ContextualRelevancy_keeps_contexts :
  keeps_contexts Examples.ContextualRelevancy_class.
Proof.
  intros name f args a Hm. method_cases Hm; try reflexivity.
  - now destruct args as [|x [|y args]].
  - now destruct args as [|x [|y args]].
Qed.

(** * The claims *)

(** C1 (as stated, refuted). A [Rouge] whose [measure] is interrupted from
    the keyboard, followed by a working [BLEU]: [KeyboardInterrupt] is not an
    instance of [Exception], the handler lets it through, [evaluate] raises
    it, no ERROR record is written and the [BLEU] strategy never has its
    turn. *)
Lemma interrupt_aborts_run :
  let interrupted := mkMetric 0 Examples.Rouge_interrupted_class in
  let good := mkMetric 1 Examples.BLEU_class in
  let self := mkEvaluator Examples.llm [interrupted; good] in
  let KeyboardInterrupt := mkExc "KeyboardInterrupt" EmptyString false in
  fst (evaluate_dispatch interrupted
         (logged (fresh Examples.empty_state) (started interrupted))) =
    Raise KeyboardInterrupt /\
  fst (evaluate self Examples.empty_state) = Raise KeyboardInterrupt /\
  trace (snd (evaluate self Examples.empty_state)) =
    [ELog INFO "Evaluating metric: Rouge";
     ECall 0 "measure" [] (Raise KeyboardInterrupt)].
Proof. cbv zeta. repeat split; vm_compute; reflexivity. Qed.

(** The same with an instance of [Exception] whose [__str__] raises: the
    handler catches it, [str(e)] raises [TypeError] inside the handler, and
    that exception ends the run before the ERROR record is written. *)
Lemma unprintable_aborts_run :
  let unprintable := mkMetric 0 Examples.Rouge_unprintable_class in
  let good := mkMetric 1 Examples.BLEU_class in
  let self := mkEvaluator Examples.llm [unprintable; good] in
  let e := TypeError "__str__ returned non-string (type NoneType)" in
  exc_is_Exception e = true /\
  fst (evaluate self Examples.empty_state) = Raise e /\
  trace (snd (evaluate self Examples.empty_state)) =
    [ELog INFO "Evaluating metric: Rouge";
     ECall 0 "measure" []
       (Raise (BuildExc "ScoringError" EmptyString true (Some e)))].
Proof. cbv zeta. repeat split; vm_compute; reflexivity. Qed.

(** C1 (amended). Whenever the protocol of a strategy raises [e], the report
    is as it was before that strategy's turn, and what follows depends on
    [e] alone.  If [e] is an instance of [Exception] whose [__str__] returns,
    the handler catches it and writes one ERROR record with the name of the
    strategy's class and the message, and the run goes on with the
    strategies that follow.  If [e] is not an instance of [Exception],
    [evaluate] raises [e] there and then: no ERROR record, no later strategy
    attempted.  If [e] is an instance of [Exception] whose [__str__] raises
    [e'], [evaluate] raises [e'] there and then.  So [evaluate] returns
    whenever the methods of the configured strategies raise nothing but
    instances of [Exception] whose [__str__] returns. *)
Theorem failure_isolation self st :
  ((forall metric, In metric (metrics self) -> raises_only_loggable (m_class metric)) ->
   exists report st', evaluate self st = (Ok report, st')) /\
  (forall before metric after st1 e st2,
      metrics self = before ++ metric :: after ->
      for_each before evaluate_metric (fresh st) = (Ok tt, st1) ->
      evaluate_try metric (cls_name (m_class metric)) st1 = (Raise e, st2) ->
      results st2 = results st1 /\
      (exc_is_Exception e = true -> exc_str_raises e = None ->
       evaluate_metric metric st1 = (Ok tt, logged st2 (failed metric e)) /\
       evaluate self st =
         (for_each after evaluate_metric ;;; get_results) (logged st2 (failed metric e))) /\
      (exc_is_Exception e = false -> evaluate self st = (Raise e, st2)) /\
      (forall e', exc_is_Exception e = true -> exc_str_raises e = Some e' ->
                  evaluate self st = (Raise e', st2))).
Proof.
  split.
  - intros Hcls.
    pose proof (loop_returns (metrics self) (fresh st) Hcls) as Hret.
    rewrite evaluate_unfold.
    destruct (for_each (metrics self) evaluate_metric (fresh st)) as [[[]|e] st'];
      [eauto | discriminate].
  - intros before metric after st1 e st2 Hsplit Hbefore Htry.
    assert (Hrun : evaluate self st =
                   match evaluate_metric metric st1 with
                   | (Ok _, st3) => (for_each after evaluate_metric ;;; get_results) st3
                   | (Raise e3, st3) => (Raise e3, st3)
                   end).
    { rewrite evaluate_unfold, Hsplit, for_each_app.
      rewrite (bind_Ok _ _ _ _ _ Hbefore). cbn [for_each].
      unfold bind, get_results.
      destruct (evaluate_metric metric st1) as [[u|e3] st3]; [|reflexivity].
      destruct (for_each after evaluate_metric st3) as [[u'|e4] st4]; reflexivity. }
    split; [|split; [|split]].
    + pose proof (evaluate_try_unfold metric st1) as Hu. rewrite Htry in Hu.
      pose proof (dispatch_results metric (logged st1 (started metric))) as Hres.
      destruct (evaluate_dispatch metric (logged st1 (started metric))) as [[u|e'] st2'];
        [discriminate|].
      injection Hu as -> ->. cbn [fst snd] in Hres.
      now destruct (recognized metric).
    + intros He Hs.
      assert (Hcaught : evaluate_metric metric st1 = (Ok tt, logged st2 (failed metric e))).
      { apply evaluate_metric_caught; [exact Htry|]. apply loggable_spec. now split. }
      split; [exact Hcaught|]. now rewrite Hrun, Hcaught.
    + intros He. now rewrite Hrun, (evaluate_metric_escaped _ _ _ _ Htry He).
    + intros e' He Hs. now rewrite Hrun, (evaluate_metric_str_raises _ _ _ _ _ Htry He Hs).
Qed.

(** C1, at a failing [BLEU] followed by a working one: the run returns, and
    the [ValueError] of the first is caught and logged before the second has
    its turn. *)
Lemma failure_isolation_witness :
  let broken := mkMetric 0 Examples.BLEU_broken_class in
  let good := mkMetric 1 Examples.BLEU_class in
  let self := mkEvaluator Examples.llm [broken; good] in
  let st := Examples.empty_state in
  let e := mkExc "ValueError" "empty reference" true in
  let st2 := snd (evaluate_try broken "BLEU" (fresh st)) in
  (exists report st', evaluate self st = (Ok report, st')) /\
  fst (evaluate_try broken "BLEU" (fresh st)) = Raise e /\
  trace st2 = [ELog INFO "Evaluating metric: BLEU"; ECall 0 "measure" [] (Raise e)] /\
  evaluate_metric broken (fresh st) = (Ok tt, logged st2 (failed broken e)) /\
  evaluate self st =
    (for_each [good] evaluate_metric ;;; get_results) (logged st2 (failed broken e)).
Proof.
  cbv zeta.
  pose (self := mkEvaluator Examples.llm
                  [mkMetric 0 Examples.BLEU_broken_class; mkMetric 1 Examples.BLEU_class]).
  destruct (failure_isolation self Examples.empty_state) as [Hret Hturn].
  split.
  - apply Hret. intros metric [<-|[<-|[]]].
    + exact BLEU_broken_raises_only_loggable.
    + exact BLEU_raises_only_loggable.
  - split; [vm_compute; reflexivity|]. split; [vm_compute; reflexivity|].
    refine (proj1 (proj2 (Hturn [] (mkMetric 0 Examples.BLEU_broken_class)
                            [mkMetric 1 Examples.BLEU_class]
                            (fresh Examples.empty_state)
                            (mkExc "ValueError" "empty reference" true) _
                            eq_refl eq_refl _)) eq_refl eq_refl).
    vm_compute; reflexivity.
Defined.

(** C2 (as stated, refuted). Two [BLEU] strategies, the first measuring
    [1.0], the second raising [ValueError] from [measure]: the second raised
    during its protocol, and the key of its kind is in the returned mapping
    all the same, with the entry the first one wrote. *)
Lemma key_present_though_strategy_raised :
  let good := mkMetric 0 Examples.BLEU_class in
  let broken := mkMetric 1 Examples.BLEU_broken_class in
  let self := mkEvaluator Examples.llm [good; broken] in
  exists report,
    fst (evaluate self Examples.empty_state) = Ok report /\
    recognized broken = Some BLEU /\
    outcomes (metrics self) (fresh Examples.empty_state) !! 1 =
      Some (Caught (mkExc "ValueError" "empty reference" true)) /\
    report !! result_key BLEU = Some (VDict [("score", VFloat 1%Q)]).
Proof.
  cbv zeta. eexists. split; [vm_compute; reflexivity|].
  repeat split; vm_compute; reflexivity.
Qed.

(** C2 (amended). The key set of the mapping [evaluate] returns is a subset
    of the kind-keys of the configured strategies, and the key of a kind is
    in the mapping exactly when some configured strategy of that kind
    completed its protocol; so it is absent when every strategy of that kind
    raised, and present when one of them raised and another completed. *)
Theorem report_keys self st report st' :
  evaluate self st = (Ok report, st') ->
  (forall k, k ∈ dom report ->
             exists metric c,
               In metric (metrics self) /\ recognized metric = Some c /\ k = result_key c) /\
  (forall c, result_key c ∈ dom report <->
             exists i metric,
               metrics self !! i = Some metric /\ recognized metric = Some c /\
               outcomes (metrics self) (fresh st) !! i = Some Completed).
Proof.
  intros H.
  assert (Hfrom : forall k v, report !! k = Some v ->
            exists i metric c,
              metrics self !! i = Some metric /\ recognized metric = Some c /\
              k = result_key c /\
              outcomes (metrics self) (fresh st) !! i = Some Completed).
  { intros k v Hk. rewrite (report_lookup _ _ _ _ H) in Hk.
    destruct (last_contribution_Some _ _ _ Hk) as [i Hi].
    destruct (contributions_lookup _ _ _ _ Hi) as (metric & sti & Hm & Hp & Ho).
    symmetry in Hp. destruct (produced_inv _ _ _ _ Hp) as (c & Hc & -> & _ & Hcompl).
    exists i, metric, c. rewrite Ho, Hcompl. now repeat split. }
  split.
  - intros k [v Hk]%elem_of_dom.
    destruct (Hfrom k v Hk) as (i & metric & c & Hm & Hc & -> & _).
    exists metric, c. repeat split; [|assumption].
    apply list_elem_of_In, list_elem_of_lookup. now exists i.
  - intros c. rewrite elem_of_dom. split.
    + intros [v Hk]. destruct (Hfrom _ v Hk) as (i & metric & c' & Hm & Hc & Heq & Ho).
      apply result_key_inj in Heq as <-. now exists i, metric.
    + intros (i & metric & Hm & Hc & Ho).
      now apply (completed_key_present _ _ _ _ i metric c H).
Qed.

(** C2, at two [BLEU] strategies, the second failing. *)
Lemma report_keys_witness :
  let good := mkMetric 0 Examples.BLEU_class in
  let broken := mkMetric 1 Examples.BLEU_broken_class in
  let self := mkEvaluator Examples.llm [good; broken] in
  exists report st',
    evaluate self Examples.empty_state = (Ok report, st') /\
    (forall k, k ∈ dom report ->
               exists metric c,
                 In metric (metrics self) /\ recognized metric = Some c /\ k = result_key c) /\
    (forall c, result_key c ∈ dom report <->
               exists i metric,
                 metrics self !! i = Some metric /\ recognized metric = Some c /\
                 outcomes (metrics self) (fresh Examples.empty_state) !! i = Some Completed).
Proof.
  cbv zeta.
  destruct (returned
              (evaluate
                 (mkEvaluator Examples.llm
                    [mkMetric 0 Examples.BLEU_class; mkMetric 1 Examples.BLEU_broken_class])
                 Examples.empty_state)) as [report H].
  - vm_compute. reflexivity.
  - exists report. eexists. split; [exact H|]. exact (report_keys _ _ _ _ H).
Defined.

(** C3. For a [ContextualRelevancy] strategy with a context list of length
    [n > 0] whose irrelevancy classification returned [k] items, the score
    passed to the rationale request, next to the classification, is [1.0]
    when [k = 0] and [max(0, 1 - k/n)] otherwise (for every [k]; floats are
    exact rationals here). *)
Theorem contextual_relevancy_score_law metric st contexts irr query_args args res evs :
  recognized metric = Some ContextualRelevancy ->
  keeps_contexts (m_class metric) ->
  assoc "retrieval_contexts" (heap st (m_id metric)) = Some (VList contexts) ->
  (0 < length contexts)%nat ->
  trace (snd (evaluate_dispatch metric st)) = trace st ++ evs ->
  In (ECall (m_id metric) "get_irrelevancies" query_args (Ok (VList irr))) evs ->
  In (ECall (m_id metric) "get_reason" args res) evs ->
  exists score x,
    args = [VList irr; score] /\
    py_float score = Some x /\
    Qeq x (if Nat.eqb (length irr) 0 then 1%Q
           else Qmax 0 (1 - inject_Z (Z.of_nat (length irr)) /
                            inject_Z (Z.of_nat (length contexts)))).
Proof.
  intros Hrec Hkeep Hctx Hn Htrace Hirr Hreason.
  destruct (contextual_relevancy_branch metric st (VList contexts) Hrec Hkeep Hctx)
    as [(_ & evs' & Ht & Hnone)|Hreq].
  - rewrite Htrace in Ht. apply app_inv_head in Ht as <-. now destruct (Hnone args res).
  - destruct Hreq as (q & irrelevancies & r_set & q' & verdicts & score & r_reason &
                      Ht & Hscore & _).
    rewrite Htrace in Ht. apply app_inv_head in Ht as ->.
    among_four Hirr. injection Hirr as _ ->.
    among_four Hreason. injection Hreason as <- _.
    unfold score_of in Hscore. destruct irr as [|i irr]; cbn [py_not] in Hscore.
    + subst score. exists (VFloat 1%Q), 1%Q. now repeat split.
    + destruct Hscore as (k & n & Hk & Hlen & _ & ->).
      apply yields_py_len_list in Hk as ->. apply yields_py_len_list in Hlen as ->.
      destruct (py_max0_float
                  (Qred (1 - Qred (inject_Z (Z.of_nat (length (i :: irr))) /
                                   inject_Z (Z.of_nat (length contexts))))))
        as (x & Hx & Heq).
      eexists. exists x. split; [reflexivity|]. split; [exact Hx|].
      rewrite Heq. cbn [Nat.eqb length].
      assert (Hy : Qeq (Qred (1 - Qred (inject_Z (Z.of_nat (S (length irr))) /
                                        inject_Z (Z.of_nat (length contexts)))))
                       (1 - inject_Z (Z.of_nat (S (length irr))) /
                            inject_Z (Z.of_nat (length contexts))))
        by (now rewrite !Qred_correct).
      destruct (Qlt_le_dec 0 (1 - inject_Z (Z.of_nat (S (length irr))) /
                                   inject_Z (Z.of_nat (length contexts)))) as [Hlt|Hle].
      * rewrite !Q.max_r; [exact Hy | now apply Qlt_le_weak | rewrite Hy; now apply Qlt_le_weak].
      * rewrite !Q.max_l; [reflexivity | exact Hle | now rewrite Hy].
Qed.

(** C3, at three contexts of which ["b"] is flagged. *)
Lemma contextual_relevancy_score_law_witness :
  exists score x,
    [VList [VStr "b"]; VFloat (2 # 3)] = [VList [VStr "b"]; score] /\
    py_float score = Some x /\
    Qeq x (if Nat.eqb (length [VStr "b"]) 0 then 1%Q
           else Qmax 0 (1 - inject_Z (Z.of_nat (length [VStr "b"])) /
                            inject_Z (Z.of_nat (length [VStr "a"; VStr "b"; VStr "c"])))).
Proof.
  apply (contextual_relevancy_score_law
           (mkMetric 0 Examples.ContextualRelevancy_class) Examples.relevancy_state
           [VStr "a"; VStr "b"; VStr "c"] [VStr "b"]
           [VStr "Q"; VList [VStr "a"; VStr "b"; VStr "c"]]
           [VList [VStr "b"]; VFloat (2 # 3)]
           (Ok (VObj "Reason" [("reason", VStr "one context is off topic")]))
           (trace (snd (evaluate_dispatch (mkMetric 0 Examples.ContextualRelevancy_class)
                          Examples.relevancy_state)))).
  - vm_compute. reflexivity.
  - exact ContextualRelevancy_keeps_contexts.
  - reflexivity.
  - cbn. lia.
  - reflexivity.
  - vm_compute. auto 10.
  - vm_compute. auto 10.
Defined.

(** C4 (as stated, refuted). [ContextualRelevancy(query="Q",
    contexts=["a","b","c"])] with the context ["b"] flagged irrelevant and a
    rationale that is a sentence: the evaluation succeeds, the score
    [2/3] is passed to [get_reason], and the entry of the report has the two
    fields [verdicts] and [reason] and holds the number [2/3] nowhere. *)
Lemma score_not_in_entry :
  let metric := mkMetric 0 Examples.ContextualRelevancy_class in
  let self := mkEvaluator Examples.llm [metric] in
  let st := Examples.relevancy_state in
  exists report entry,
    fst (evaluate self st) = Ok report /\
    In (ECall 0 "get_reason" [VList [VStr "b"]; VFloat (2 # 3)]
          (Ok (VObj "Reason" [("reason", VStr "one context is off topic")])))
       (trace (snd (evaluate self st))) /\
    report !! "contextual_relevancy" = Some entry /\
    entry = VDict [("verdicts",
                    VList [VDict [("verdict", VStr "yes"); ("reason", VStr EmptyString)];
                           VDict [("verdict", VStr "no"); ("reason", VStr "off topic")];
                           VDict [("verdict", VStr "yes"); ("reason", VStr EmptyString)]]);
                   ("reason", VDict [("reason", VStr "one context is off topic")])] /\
    holds_number (2 # 3) entry = false.
Proof.
  cbv zeta. eexists. eexists. split; [vm_compute; reflexivity|].
  split; [vm_compute; auto 10|]. split; [vm_compute; reflexivity|].
  split; reflexivity.
Qed.

(** C4 (amended). For a successful [ContextualRelevancy] evaluation with
    three contexts of which one is flagged irrelevant, the score
    [max(0, 1 - 1/3) = 2/3] is passed to the rationale request, and the
    entry of the report has the fields [verdicts] and [reason]: the
    per-context verdicts and the rationale that request returned.  The score
    is not a field of the entry. *)
Theorem contextual_relevancy_entry metric st u st1 c1 c2 c3 flagged query_args evs :
  recognized metric = Some ContextualRelevancy ->
  keeps_contexts (m_class metric) ->
  assoc "retrieval_contexts" (heap st (m_id metric)) = Some (VList [c1; c2; c3]) ->
  evaluate_dispatch metric st = (Ok u, st1) ->
  trace st1 = trace st ++ evs ->
  In (ECall (m_id metric) "get_irrelevancies" query_args (Ok (VList [flagged]))) evs ->
  exists reason verdicts verdicts_args verdicts_verdicts e_verdicts,
    In (ECall (m_id metric) "get_reason" [VList [flagged]; VFloat (2 # 3)] (Ok reason)) evs /\
    In (ECall (m_id metric) "get_verdicts" verdicts_args (Ok verdicts)) evs /\
    yields (field verdicts "verdicts") verdicts_verdicts /\
    yields (dicts_of verdicts_verdicts) e_verdicts /\
    results st1 !! "contextual_relevancy" =
      Some (VDict [("verdicts", e_verdicts); ("reason", model_dump reason)]).
Proof.
  intros Hrec Hkeep Hctx Hrun Htrace Hirr.
  destruct (contextual_relevancy_branch metric st (VList [c1; c2; c3]) Hrec Hkeep Hctx)
    as [((e & He) & _)|Hreq]; rewrite Hrun in *; [discriminate|].
  destruct Hreq as (q & irrelevancies & r_set & q' & verdicts & score & r_reason &
                    Ht & Hscore & Hdone).
  cbn [fst snd] in *. rewrite Htrace in Ht. apply app_inv_head in Ht as ->.
  among_four Hirr. injection Hirr as <- ->.
  destruct (Hdone u eq_refl) as (reason & vv & ds & -> & Hvv & Hds & Hres).
  unfold score_of in Hscore. cbn [py_not] in Hscore.
  destruct Hscore as (k & n & Hk & Hlen & _ & ->).
  apply yields_py_len_list in Hk as ->. apply yields_py_len_list in Hlen as ->.
  exists reason, verdicts, [q'; VList [c1; c2; c3]], vv, ds.
  split; [|split; [|split; [|split]]].
  - cbn. do 3 right. left. reflexivity.
  - cbn. do 2 right. left. reflexivity.
  - exact Hvv.
  - exact Hds.
  - rewrite Hres. apply lookup_insert_eq.
Qed.

(** C4, at the same strategy. *)
Lemma contextual_relevancy_entry_witness :
  let metric := mkMetric 0 Examples.ContextualRelevancy_class in
  let st := Examples.relevancy_state in
  let evs := trace (snd (evaluate_dispatch metric st)) in
  exists reason verdicts verdicts_args verdicts_verdicts e_verdicts,
    In (ECall 0 "get_reason" [VList [VStr "b"]; VFloat (2 # 3)] (Ok reason)) evs /\
    In (ECall 0 "get_verdicts" verdicts_args (Ok verdicts)) evs /\
    yields (field verdicts "verdicts") verdicts_verdicts /\
    yields (dicts_of verdicts_verdicts) e_verdicts /\
    results (snd (evaluate_dispatch metric st)) !! "contextual_relevancy" =
      Some (VDict [("verdicts", e_verdicts); ("reason", model_dump reason)]).
Proof.
  cbv zeta.
  apply (contextual_relevancy_entry
           (mkMetric 0 Examples.ContextualRelevancy_class) Examples.relevancy_state
           tt _ (VStr "a") (VStr "b") (VStr "c") (VStr "b")
           [VStr "Q"; VList [VStr "a"; VStr "b"; VStr "c"]]).
  - vm_compute. reflexivity.
  - exact ContextualRelevancy_keeps_contexts.
  - reflexivity.
  - vm_compute. reflexivity.
  - reflexivity.
  - vm_compute. auto 10.
Defined.

(** C5. A configured [Faithfulness] strategy whose protocol completes
    leaves a [faithfulness] entry in the report, and the [faithfulness]
    entry of the report is always the bundle of the four stage outputs of a
    configured [Faithfulness] strategy that completed its protocol: the
    trace holds its four calls in the order claims, truths, verdicts,
    reason, with the verdicts requested on the claims the first call
    returned and the rationale on the verdicts and truths the earlier calls
    returned. *)
Theorem faithfulness_entry_bundles_stages self st report st' :
  evaluate self st = (Ok report, st') ->
  (forall i metric,
      metrics self !! i = Some metric ->
      recognized metric = Some Faithfulness ->
      outcomes (metrics self) (fresh st) !! i = Some Completed ->
      is_Some (report !! "faithfulness")) /\
  (forall entry,
      report !! "faithfulness" = Some entry ->
      exists metric pre evs post,
        In metric (metrics self) /\ isinstance metric Faithfulness = true /\
        trace st' = pre ++ evs ++ post /\
        faithfulness_protocol (m_id metric) evs entry).
Proof.
  intros H. split.
  - intros i metric Hm Hc Ho.
    apply (completed_key_present _ _ _ _ i metric Faithfulness H Hm Hc Ho).
  - intros entry Hentry. destruct (evaluate_returns_inv _ _ _ _ H) as (Hloop & ->).
    pose proof (faithfulness_backed_loop (metrics self) (metrics self) (fresh st)
                  (fun _ Hin => Hin)) as Hinv.
    rewrite Hloop in Hinv. apply Hinv; [|exact Hentry].
    intros entry0 Hk. cbn in Hk. now rewrite lookup_empty in Hk.
Qed.

(** C5, at one [Faithfulness] strategy. *)
Lemma faithfulness_entry_bundles_stages_witness :
  let metric := mkMetric 0 Examples.Faithfulness_class in
  let self := mkEvaluator Examples.llm [metric] in
  let st := Examples.empty_state in
  exists report st',
    evaluate self st = (Ok report, st') /\
    (forall i metric,
        metrics self !! i = Some metric ->
        recognized metric = Some Faithfulness ->
        outcomes (metrics self) (fresh st) !! i = Some Completed ->
        is_Some (report !! "faithfulness")) /\
    (forall entry,
        report !! "faithfulness" = Some entry ->
        exists metric pre evs post,
          In metric (metrics self) /\ isinstance metric Faithfulness = true /\
          trace st' = pre ++ evs ++ post /\
          faithfulness_protocol (m_id metric) evs entry).
Proof.
  cbv zeta.
  destruct (returned
              (evaluate (mkEvaluator Examples.llm [mkMetric 0 Examples.Faithfulness_class])
                 Examples.empty_state)) as [report H].
  - vm_compute. reflexivity.
  - exists report. eexists. split; [exact H|].
    exact (faithfulness_entry_bundles_stages _ _ _ _ H).
Defined.

(** C6. At construction the orchestrator calls [set_model] with the shared
    model handle on the configured strategies that have a [set_model]
    attribute, once each and in list order, and on no other strategy; a
    strategy without it is passed over and raises nothing (construction
    fails only if a [set_model] call itself raises, and has then bound the
    strategies before it).  The binding is over when the constructor
    returns: a later [evaluate] adds its events after the binding and calls
    [set_model] on nothing. *)
Theorem model_bound_at_construction handle ms st :
  exists evs,
    trace (snd (Evaluator_init handle ms st)) =
      trace st ++ ELog INFO "Evaluator initialized with model and metrics." :: evs /\
    match fst (Evaluator_init handle ms st) with
    | Ok self =>
        self = mkEvaluator handle ms /\
        calls evs = map (binding_call handle) (List.filter wants_model ms) /\
        Forall returned_normally evs /\
        exists evs',
          trace (snd (evaluate self (snd (Evaluator_init handle ms st)))) =
            trace (snd (Evaluator_init handle ms st)) ++ evs' /\
          forall o args res, ~ In (ECall o "set_model" args res) evs'
    | Raise e =>
        (exists evs0 o, evs = evs0 ++ [ECall o "set_model" [handle] (Raise e)]) /\
        exists rest, map (binding_call handle) (List.filter wants_model ms) = calls evs ++ rest
    end.
Proof.
  pose (st0 := logged st (ELog INFO "Evaluator initialized with model and metrics.")).
  destruct (binder_loop_spec handle ms st0) as (evs & Ht & _ & Hres).
  assert (Hinit : Evaluator_init handle ms st =
            match binder_loop (mkEvaluator handle ms) st0 with
            | (Ok _, st1) =>
                (Ok (mkEvaluator handle ms), logged st1 (ELog INFO "Model set for all metrics."))
            | (Raise e, st1) => (Raise e, st1)
            end).
  { unfold Evaluator_init.
    rewrite (bind_Ok (logger_info "Evaluator initialized with model and metrics.")
               _ st tt st0 eq_refl).
    change (set_model_for_metrics (mkEvaluator handle ms))
      with (binder_loop (mkEvaluator handle ms) ;;; logger_info "Model set for all metrics.").
    destruct (binder_loop (mkEvaluator handle ms) st0) as [[[]|e] st1] eqn:E.
    - rewrite (bind_Ok _ _ st0 tt (logged st1 (ELog INFO "Model set for all metrics."))).
      + reflexivity.
      + now rewrite (bind_Ok _ _ _ _ _ E).
    - rewrite (bind_Raise _ _ st0 e st1); [reflexivity|].
      now rewrite (bind_Raise _ _ _ _ _ E). }
  rewrite Hinit.
  destruct (binder_loop (mkEvaluator handle ms) st0) as [[u|e] st1]; cbn [fst snd] in *.
  - destruct Hres as (Hc & Hn).
    exists (evs ++ [ELog INFO "Model set for all metrics."]).
    split; [cbn; rewrite Ht; cbn; now rewrite <- !app_assoc|].
    split; [reflexivity|]. split; [rewrite calls_app, Hc; cbn; apply app_nil_r|].
    split; [apply Forall_app; split; [exact Hn | repeat constructor]|].
    remember (logged st1 (ELog INFO "Model set for all metrics.")) as st2.
    destruct (loop_trace ms (fresh st2)) as (segs & Hs & Hall & _).
    exists (concat segs). split.
    + rewrite evaluate_unfold. cbn [metrics].
      destruct (for_each ms evaluate_metric (fresh st2)) as [[[]|e] st3]; exact Hs.
    + intros o args res Hin. apply in_concat in Hin as (seg & Hseg & Hin).
      destruct (turns_of _ _ Hall seg Hseg) as [metric Hturn].
      now apply (turn_binds_nothing _ _ _ _ _ Hturn Hin).
  - destruct Hres as (Hlast & rest & Hrest). exists evs.
    split; [rewrite Ht; cbn; now rewrite <- app_assoc|]. split.
    + exact Hlast.
    + now exists rest.
Qed.

(** C7. During [evaluate] the strategies are attempted one at a time in the
    order of the list given at construction: the events the run adds are the
    turns of the strategies, one after the other in list order, each turn
    made of that strategy's opening record, calls on that strategy only and
    its closing record; the turn of a strategy is over (its protocol has
    completed or raised) before the next one starts.  Every strategy has its
    turn when [evaluate] returns; otherwise the turns are those of the
    strategies up to the one whose exception left [evaluate]. *)
Theorem strategies_attempted_in_order self st :
  exists segs,
    trace (snd (evaluate self st)) = trace st ++ concat segs /\
    Forall2 turn (take (length segs) (metrics self)) segs /\
    (forall report, fst (evaluate self st) = Ok report ->
                    length segs = length (metrics self)).
Proof.
  destruct (loop_trace (metrics self) (fresh st)) as (segs & Ht & Hall & Hlen).
  exists segs. rewrite evaluate_unfold.
  destruct (for_each (metrics self) evaluate_metric (fresh st)) as [[[]|e] st1];
    cbn [fst snd] in *.
  - repeat split; [exact Ht | exact Hall | intros _ _; now apply (Hlen tt)].
  - repeat split; [exact Ht | exact Hall | discriminate].
Qed.

(** C8. The dict under construction never holds a partial entry.  At every
    point between two turns of the loop, each entry of [results] sits under
    the key of a metric kind, has every payload field of that kind, and was
    written by a strategy of that kind whose protocol completed.  A turn
    whose protocol raises, at whatever point of its sequence of calls,
    leaves [results] exactly as it found it: at the moment of the exception
    and again after the handler.  After the last turn [results] is what
    [evaluate] returns. *)
Theorem entries_complete_or_absent self st before after st1 :
  metrics self = before ++ after ->
  for_each before evaluate_metric (fresh st) = (Ok tt, st1) ->
  (forall k v, results st1 !! k = Some v ->
               exists i metric c,
                 before !! i = Some metric /\ recognized metric = Some c /\
                 outcomes before (fresh st) !! i = Some Completed /\
                 k = result_key c /\ complete_entry c v) /\
  (forall metric rest e st2,
      after = metric :: rest ->
      evaluate_try metric (cls_name (m_class metric)) st1 = (Raise e, st2) ->
      results st2 = results st1 /\
      results (snd (evaluate_metric metric st1)) = results st1) /\
  (after = [] -> evaluate self st = (Ok (results st1), st1)).
Proof.
  intros Hsplit Hbefore. split; [|split].
  - intros k v Hk. rewrite (loop_results _ _ _ Hbefore k) in Hk.
    destruct (last_contribution k (contributions before (fresh st))) as [v'|] eqn:E.
    + injection Hk as ->.
      destruct (last_contribution_Some _ _ _ E) as [i Hi].
      destruct (contributions_lookup _ _ _ _ Hi) as (metric & sti & Hm & Hp & Ho).
      symmetry in Hp. destruct (produced_inv _ _ _ _ Hp) as (c & Hc & -> & Hv & Hcompl).
      exists i, metric, c. rewrite Ho, Hcompl. now repeat split.
    + cbn in Hk. now rewrite lookup_empty in Hk.
  - intros metric rest e st2 _ Htry.
    pose proof (evaluate_try_unfold metric st1) as Hu. rewrite Htry in Hu.
    pose proof (dispatch_results metric (logged st1 (started metric))) as Hres.
    destruct (evaluate_dispatch metric (logged st1 (started metric))) as [[u|e'] st2'];
      [discriminate|].
    injection Hu as <- <-. cbn [fst snd] in Hres.
    assert (Hr : results st2 = results st1) by (now destruct (recognized metric)).
    split; [exact Hr|].
    rewrite evaluate_metric_unfold, Htry.
    destruct (exc_is_Exception e); [destruct (exc_str_raises e)|]; exact Hr.
  - intros ->. rewrite app_nil_r in Hsplit.
    now rewrite evaluate_unfold, Hsplit, Hbefore.
Qed.

(** C8, at a working [BLEU] followed by a [Faithfulness] strategy that fails
    at its third stage, after two of its calls have returned: the [BLEU]
    entry is complete, and the failed turn leaves the dict with that entry
    and no other. *)
Lemma entries_complete_or_absent_witness :
  let good := mkMetric 0 Examples.BLEU_class in
  let broken := mkMetric 1 Examples.Faithfulness_broken_class in
  let self := mkEvaluator Examples.llm [good; broken] in
  let st := Examples.empty_state in
  let st1 := snd (for_each [good] evaluate_metric (fresh st)) in
  let e := mkExc "JSONDecodeError" "Expecting value" true in
  results st1 = <["BLEU" := VDict [("score", VFloat 1%Q)]]> ∅ /\
  fst (evaluate_try broken "Faithfulness" st1) = Raise e /\
  results (snd (evaluate_try broken "Faithfulness" st1)) = results st1 /\
  results (snd (evaluate_metric broken st1)) = results st1.
Proof.
  cbv zeta.
  pose (good := mkMetric 0 Examples.BLEU_class).
  pose (broken := mkMetric 1 Examples.Faithfulness_broken_class).
  pose (st1 := snd (for_each [good] evaluate_metric (fresh Examples.empty_state))).
  destruct (entries_complete_or_absent
              (mkEvaluator Examples.llm [good; broken]) Examples.empty_state
              [good] [broken] st1) as (_ & Hraise & _).
  - reflexivity.
  - vm_compute. reflexivity.
  - split; [vm_compute; reflexivity|]. split; [vm_compute; reflexivity|].
    apply (Hraise broken [] (mkExc "JSONDecodeError" "Expecting value" true)
             (snd (evaluate_try broken "Faithfulness" st1)) eq_refl).
    vm_compute. reflexivity.
Defined.

(** C9. A strategy that is an instance of none of the thirteen classes of
    the chain is passed over: its turn is the two INFO records, no method of
    it is called, its attributes and the report are left as they were, no
    ERROR record is written and nothing is raised; the loop goes on with the
    next strategy. *)
Theorem unrecognized_strategy_skipped metric st :
  (forall c, isinstance metric c = false) ->
  let st' := mkState (heap st) (results st) (trace st ++ [started metric; completed metric]) in
  evaluate_metric metric st = (Ok tt, st') /\
  forall rest,
    for_each (metric :: rest) evaluate_metric st = for_each rest evaluate_metric st'.
Proof.
  intros Hnone st'. apply unrecognized_iff in Hnone.
  assert (E : evaluate_metric metric st = (Ok tt, st')).
  { apply evaluate_metric_completed. rewrite evaluate_try_unfold.
    rewrite (dispatch_unrecognized _ Hnone). cbn. unfold logged, st'. cbn.
    now rewrite <- app_assoc. }
  split; [exact E|]. intros rest. now apply for_each_cons_Ok.
Qed.

(** C9, at a strategy of a class of the caller's own. *)
Lemma unrecognized_strategy_skipped_witness :
  let metric := mkMetric 3 Examples.Custom_class in
  let st := Examples.empty_state in
  let st' := mkState (heap st) (results st)
               [ELog INFO "Evaluating metric: MyMetric";
                ELog INFO "Completed evaluation for metric: MyMetric"] in
  evaluate_metric metric st = (Ok tt, st') /\
  forall rest,
    for_each (metric :: rest) evaluate_metric st = for_each rest evaluate_metric st'.
Proof.
  cbv zeta.
  apply (unrecognized_strategy_skipped (mkMetric 3 Examples.Custom_class)
           Examples.empty_state).
  intros c. reflexivity.
Defined.

(** C10. With several strategies of one kind in the list, each has its turn
    in list order, and the returned mapping holds one entry under the key of
    that kind: the payload assigned by the last of them whose protocol
    completed.  What a turn assigns is taken apart from what the dict held:
    a turn lays its assignments over the entries already there, so the
    payload of a later strategy replaces the one an earlier strategy of the
    same kind wrote, and a later strategy that fails replaces nothing. *)
Theorem last_successful_strategy_wins self st report st' :
  evaluate self st = (Ok report, st') ->
  (exists segs,
      trace st' = trace st ++ concat segs /\ Forall2 turn (metrics self) segs) /\
  (forall metric st1,
      results (snd (evaluate_metric metric st1)) = assignments metric st1 ∪ results st1) /\
  (forall k, report !! k = last_assignment k (assignments_along (metrics self) (fresh st))) /\
  (forall i metric c,
      metrics self !! i = Some metric ->
      recognized metric = Some c ->
      outcomes (metrics self) (fresh st) !! i = Some Completed ->
      (forall j metric', i < j -> metrics self !! j = Some metric' ->
                         recognized metric' = Some c ->
                         outcomes (metrics self) (fresh st) !! j <> Some Completed) ->
      exists m v,
        assignments_along (metrics self) (fresh st) !! i = Some m /\
        m !! result_key c = Some v /\
        report !! result_key c = Some v).
Proof.
  intros H. destruct (evaluate_returns_inv _ _ _ _ H) as (Hloop & ->).
  assert (Hreport : forall k, results st' !! k =
            last_assignment k (assignments_along (metrics self) (fresh st))).
  { intros k. rewrite (loop_assignments _ _ _ Hloop k).
    destruct (last_assignment _ _); [reflexivity | apply lookup_empty]. }
  split; [|split; [|split]].
  - destruct (loop_trace (metrics self) (fresh st)) as (segs & Ht & Hall & Hlen).
    exists segs. rewrite Hloop in *. cbn [fst snd] in *.
    rewrite (Hlen tt eq_refl), firstn_all in Hall. now split.
  - intros metric st1. apply evaluate_metric_assigns.
  - exact Hreport.
  - intros i metric c Hm Hc Ho Hlater.
    destruct (assignments_along_lookup _ (fresh st) _ _ Hm) as (sti & Hi & Ho').
    rewrite Ho in Ho'. injection Ho' as Ho'. symmetry in Ho'.
    destruct (completed_assigns _ _ _ Hc Ho') as [v Hv].
    exists (assignments metric sti), v. split; [exact Hi|]. split; [exact Hv|].
    rewrite Hreport. apply (last_assignment_at _ _ i (assignments metric sti)); trivial.
    intros j m' Hj Hl.
    destruct (m' !! result_key c) as [v'|] eqn:Ev; [|reflexivity].
    assert (Hmj : is_Some (metrics self !! j)).
    { apply lookup_lt_is_Some.
      assert (Hlen : forall ms s, length (assignments_along ms s) = length ms)
        by (induction ms as [|m0 ms IH]; intros s; cbn; [reflexivity | now rewrite IH]).
      rewrite <- (Hlen _ (fresh st)). now apply lookup_lt_Some with m'. }
    destruct Hmj as [metric' Hmj].
    destruct (assignments_along_lookup _ (fresh st) _ _ Hmj) as (stj & Hj' & Hoj).
    rewrite Hl in Hj'. injection Hj' as ->.
    destruct (assignments_inv _ _ _ _ Ev) as (c' & Hc' & Hkey & _ & Hcompl).
    apply result_key_inj in Hkey. subst c'.
    destruct (Hlater j metric' Hj Hmj Hc'). now rewrite Hoj, Hcompl.
Qed.

(** C10, at two [BLEU] strategies measuring [1.0] and then [0.5]: the entry
    of the report is the one the second assigned. *)
Lemma last_successful_strategy_wins_witness :
  let first := mkMetric 0 Examples.BLEU_class in
  let second := mkMetric 1 Examples.BLEU_half_class in
  let self := mkEvaluator Examples.llm [first; second] in
  let st := Examples.empty_state in
  exists report st',
    evaluate self st = (Ok report, st') /\
    assignments first (fresh st) !! "BLEU" = Some (VDict [("score", VFloat 1%Q)]) /\
    report !! "BLEU" = Some (VDict [("score", VFloat (1 # 2))]).
Proof.
  cbv zeta.
  destruct (returned
              (evaluate (mkEvaluator Examples.llm
                           [mkMetric 0 Examples.BLEU_class;
                            mkMetric 1 Examples.BLEU_half_class])
                 Examples.empty_state)) as [report H].
  - vm_compute. reflexivity.
  - exists report. eexists. split; [exact H|]. split; [vm_compute; reflexivity|].
    destruct (last_successful_strategy_wins _ _ _ _ H) as (_ & _ & _ & Hlast).
    destruct (Hlast 1 (mkMetric 1 Examples.BLEU_half_class) BLEU) as (m & v & Hm & Hv & Hr).
    + reflexivity.
    + vm_compute. reflexivity.
    + vm_compute. reflexivity.
    + intros j metric' Hj. destruct j as [|[|j]]; [lia | lia | discriminate].
    + vm_compute in Hm. injection Hm as <-.
      vm_compute in Hv. injection Hv as <-. exact Hr.
Defined.

(** * Further properties *)

(** ** The ERROR records of a run *)

Lemma error_records_app evs1 evs2 :
  error_records (evs1 ++ evs2) = error_records evs1 ++ error_records evs2.
Proof.
  induction evs1 as [|[o name args r|[|] msg] evs1 IH]; cbn; try exact IH.
  - reflexivity.
  - now rewrite IH.
Qed.

Lemma error_records_calls metric body :
  Forall (protocol_call metric) body -> error_records body = [].
Proof.
  induction 1 as [|[o name args r|lvl msg] body Hcall _ IH]; cbn; [reflexivity|exact IH|].
  destruct Hcall.
Qed.

Lemma error_records_closing metric o :
  error_records (closing metric o) =
  match o with
  | Caught e =>
      ["Error evaluating metric " +:+ cls_name (m_class metric) +:+ ": " +:+ exc_str e]
  | _ => []
  end.
Proof. now destruct o. Qed.

Lemma loop_error_records ms : forall st st',
  for_each ms evaluate_metric st = (Ok tt, st') ->
  exists evs,
    trace st' = trace st ++ evs /\
    error_records evs = failure_messages ms (outcomes ms st).
Proof.
  induction ms as [|metric ms IH]; intros st st' H.
  - cbn in H. injection H as <-. exists []. now rewrite app_nil_r.
  - destruct (evaluate_metric_trace metric st) as (body & Hbody & Ht).
    pose proof (evaluate_metric_result metric st) as Hres.
    destruct (evaluate_metric metric st) as [[[]|e] st1] eqn:E; cbn [fst snd] in *.
    + rewrite (for_each_cons_Ok _ _ _ _ _ E) in H.
      destruct (IH _ _ H) as (evs & Ht' & Herr).
      exists ((started metric :: body ++ closing metric (outcome_of metric st)) ++ evs).
      split; [rewrite Ht', Ht; now rewrite <- app_assoc|].
      rewrite error_records_app, Herr. cbn [outcomes failure_messages]. rewrite E. cbn [snd].
      change (error_records (started metric :: body ++ closing metric (outcome_of metric st)))
        with (error_records (body ++ closing metric (outcome_of metric st))).
      rewrite error_records_app, (error_records_calls _ _ Hbody), error_records_closing.
      destruct (outcome_of metric st); [reflexivity | reflexivity | discriminate].
    + rewrite (for_each_cons_Raise _ _ _ _ _ _ E) in H. discriminate.
Qed.

(** X2. When [evaluate] returns, the ERROR records it wrote are exactly one
    per strategy whose protocol raised, in the order of the list, each made
    of the name of the strategy's class and the message of the exception;
    a strategy that completed, or that no branch recognized, has none. *)
Theorem one_error_record_per_failure self st report st' evs :
  evaluate self st = (Ok report, st') ->
  trace st' = trace st ++ evs ->
  error_records evs =
  failure_messages (metrics self) (outcomes (metrics self) (fresh st)).
Proof.
  intros H Ht. destruct (evaluate_returns_inv _ _ _ _ H) as (Hloop & _).
  destruct (loop_error_records _ _ _ Hloop) as (evs' & Ht' & Herr).
  cbn [trace fresh] in Ht'. rewrite Ht in Ht'. now apply app_inv_head in Ht' as ->.
Qed.

(** X2, at a [Faithfulness] that fails at its third stage, a working [BLEU]
    and a failing [BLEU]. *)
Lemma one_error_record_per_failure_witness :
  let self := mkEvaluator Examples.llm
                [mkMetric 0 Examples.Faithfulness_broken_class;
                 mkMetric 1 Examples.BLEU_class;
                 mkMetric 2 Examples.BLEU_broken_class] in
  error_records (trace (snd (evaluate self Examples.empty_state))) =
  ["Error evaluating metric Faithfulness: Expecting value";
   "Error evaluating metric BLEU: empty reference"].
Proof.
  cbv zeta.
  destruct (returned
              (evaluate
                 (mkEvaluator Examples.llm
                    [mkMetric 0 Examples.Faithfulness_broken_class;
                     mkMetric 1 Examples.BLEU_class;
                     mkMetric 2 Examples.BLEU_broken_class])
                 Examples.empty_state)) as [report H].
  - vm_compute. reflexivity.
  - rewrite (one_error_record_per_failure _ _ _ _
               (trace (snd (evaluate
                 (mkEvaluator Examples.llm
                    [mkMetric 0 Examples.Faithfulness_broken_class;
                     mkMetric 1 Examples.BLEU_class;
                     mkMetric 2 Examples.BLEU_broken_class])
                 Examples.empty_state))) H eq_refl).
    vm_compute. reflexivity.
Defined.

(** ** A strategy without the method its branch needs *)

Lemma dispatch_missing_method metric c :
  recognized metric = Some c ->
  cls_methods (m_class metric) (entry_method c) = None ->
  forall st,
    evaluate_dispatch metric st =
    (Raise (AttributeError
              ("'" +:+ cls_name (m_class metric) +:+ "' object has no attribute '" +:+
               entry_method c +:+ "'")),
     st).
Proof.
  unfold recognized, evaluate_dispatch. cbn [List.find dispatch_chain].
  down_the_chain metric
    ltac:(intros [= <-] Hm st; cbn [entry_method] in *;
          unfold call, bind, method; rewrite Hm; reflexivity).
  discriminate.
Qed.

(** X3. A recognized strategy whose class lacks the first method of its
    branch ([measure], [evaluate_claims], [get_irrelevancies] or [g_eval])
    fails like any other: the iteration returns, no method of the strategy
    is called, its attributes and the report are as before, and the trace
    gains the opening record and one ERROR record with Python's
    [AttributeError] message. *)
Theorem missing_method_is_logged metric st c :
  recognized metric = Some c ->
  cls_methods (m_class metric) (entry_method c) = None ->
  evaluate_metric metric st =
  (Ok tt,
   mkState (heap st) (results st)
     (trace st ++
      [started metric;
       ELog ERROR ("Error evaluating metric " +:+ cls_name (m_class metric) +:+ ": '" +:+
                   cls_name (m_class metric) +:+ "' object has no attribute '" +:+
                   entry_method c +:+ "'")])).
Proof.
  intros Hc Hm.
  pose proof (evaluate_try_unfold metric st) as Hu.
  rewrite (dispatch_missing_method _ _ Hc Hm) in Hu.
  rewrite (evaluate_metric_caught _ _ _ _ Hu eq_refl).
  unfold logged, failed. cbn. now rewrite <- app_assoc.
Qed.

(** X3, at a [BLEU] object without [measure]. *)
Lemma missing_method_is_logged_witness :
  let metric := mkMetric 0 (mkClass "BLEU" (Examples.only BLEU) (Examples.methods [])) in
  evaluate_metric metric Examples.empty_state =
  (Ok tt,
   mkState (heap Examples.empty_state) (results Examples.empty_state)
     [ELog INFO "Evaluating metric: BLEU";
      ELog ERROR "Error evaluating metric BLEU: 'BLEU' object has no attribute 'measure'"]).
Proof.
  cbv zeta.
  apply (missing_method_is_logged
           (mkMetric 0 (mkClass "BLEU" (Examples.only BLEU) (Examples.methods [])))
           Examples.empty_state BLEU).
  - vm_compute. reflexivity.
  - reflexivity.
Defined.

(** ** The branches that call [measure] *)

(** Follows a [measure] branch that completed, from the hypothesis [H] that
    it returned. *)
Ltac measured_branch H :=
  let Hcall := fresh "Hcall" in
  apply bind_inv_Ok in H as (? & ? & Hcall & H);
  apply call_inv_Ok in Hcall as (? & _ & _ & ->);
  repeat (let Hs := fresh "Hs" in
          apply bind_inv_Ok in H as (? & ? & Hs & H);
          first
            [ apply attr_inv_Ok in Hs as (-> & Hs)
            | apply (stateless_inv_Ok _ _ _ _ (stateless_dicts_of _)) in Hs as (-> & Hs)
            | apply (stateless_inv_Ok _ _ _ _ (stateless_iter _)) in Hs as (-> & Hs)
            | apply (stateless_inv_Ok _ _ _ _
                       (stateless_comprehension _ _ (fun x => stateless_field x "data")))
                in Hs as (-> & Hs) ]);
  apply (f_equal snd) in H; cbn [snd store_result] in H; subst.

(** X4. For the ten kinds whose branch is one call of [measure]: when the
    branch completes, the strategy was called once, the [score] field of
    the entry is what [measure] returned, the fields [reason],
    [statements] and [opinions] are the strategy's attributes as they are
    after the call, and the [verdicts] field is the conversion of its
    [verdicts] attribute after the call. *)
Theorem measured_entry metric st u st1 c :
  recognized metric = Some c ->
  measured c = true ->
  evaluate_dispatch metric st = (Ok u, st1) ->
  exists score d,
    trace st1 = trace st ++ [ECall (m_id metric) "measure" [] (Ok score)] /\
    results st1 = <[result_key c := VDict d]> (results st) /\
    assoc "score" d = Some score /\
    (forall f, In f (copied_fields c) -> assoc f d = assoc f (heap st1 (m_id metric))) /\
    (forall vs, assoc "verdicts" d = Some vs ->
                exists v, assoc "verdicts" (heap st1 (m_id metric)) = Some v /\
                          yields (dicts_of v) vs).
Proof.
  unfold recognized, evaluate_dispatch. cbn [List.find dispatch_chain].
  down_the_chain metric
    ltac:(intros [= <-] Hm Hrun;
          first
            [ discriminate Hm
            | measured_branch Hrun;
              eexists; eexists;
              split; [reflexivity|]; split; [reflexivity|]; split; [reflexivity|];
              split;
              [ intros f Hin; cbn in Hin;
                repeat (destruct Hin as [<-|Hin]; [cbn; symmetry; assumption|]);
                contradiction
              | intros vs Hvs; cbn in Hvs;
                first [ discriminate Hvs
                      | injection Hvs as <-; eexists; split; eassumption ] ] ]).
  discriminate.
Qed.

(** ** The score expression *)

Lemma py_len_nonneg v k : yields (py_len v) k -> (0 <= k)%Z.
Proof.
  intros H. specialize (H (mkState (fun _ => []) ∅ [])).
  destruct v; cbn in H; try discriminate; injection H as <-; lia.
Qed.

(** A value that is true and has a length has a positive length. *)
Lemma truthy_len_pos v k : py_not v = false -> yields (py_len v) k -> (0 < k)%Z.
Proof.
  intros Hnot H. specialize (H (mkState (fun _ => []) ∅ [])).
  destruct v as [| | | |s|l|d|]; cbn in H; try discriminate; injection H as <-.
  - destruct s; [discriminate|cbn; lia].
  - destruct l; [discriminate|cbn; lia].
  - destruct d; [discriminate|cbn; lia].
Qed.

Lemma ratio_pos k n : (0 < k)%Z -> (0 < n)%Z -> (0 < inject_Z k / inject_Z n)%Q.
Proof.
  intros Hk Hn. apply Qlt_shift_div_l.
  - change 0%Q with (inject_Z 0). now rewrite <- Zlt_Qlt.
  - rewrite Qmult_0_l. change 0%Q with (inject_Z 0). now rewrite <- Zlt_Qlt.
Qed.

Lemma py_len_raises v e :
  (forall s, py_len v s = (Raise e, s)) ->
  exc_is_Exception e = true /\ exc_type e <> "ZeroDivisionError".
Proof.
  intros H. specialize (H (mkState (fun _ => []) ∅ [])).
  destruct v; cbn in H; unfold raise, ret in H; try discriminate H;
    injection H as <-; (split; [reflexivity | discriminate]).
Qed.

Lemma relevancy_score_inv metric irrelevancies st r st' :
  relevancy_score metric irrelevancies st = (r, st') ->
  st' = st /\ score_outcome metric irrelevancies st r.
Proof.
  unfold relevancy_score, score_outcome. intros H.
  destruct (py_not irrelevancies) eqn:Hnot.
  { injection H as <- <-. split; [reflexivity|]. left. now split. }
  destruct (stateless_py_len irrelevancies) as [[k|e] Hk].
  2:{ rewrite (bind_Raise _ _ _ _ _ (Hk st)) in H. injection H as <- <-.
      split; [reflexivity|]. destruct (py_len_raises _ _ Hk) as (Hexc & Hty).
      split; [exact Hexc|]. split; [contradiction|].
      intros (_ & (k & Hyk) & _). specialize (Hyk st). rewrite Hk in Hyk. discriminate. }
  rewrite (bind_Ok _ _ _ _ _ (Hk st)) in H.
  destruct (attr_cases metric "retrieval_contexts" st) as [(contexts & Hctx & Hs)|(e & Hs)].
  2:{ pose proof Hs as Hs'. unfold attr in Hs'.
      destruct (assoc "retrieval_contexts" (heap st (m_id metric))) eqn:Hctx;
        [discriminate|]. injection Hs' as He.
      rewrite (bind_Raise _ _ _ _ _ Hs) in H. injection H as <- <-. subst e.
      split; [reflexivity|]. split; [reflexivity|]. split; [discriminate|].
      intros (_ & _ & contexts & Habs & _). discriminate Habs. }
  rewrite (bind_Ok _ _ _ _ _ Hs) in H.
  destruct (stateless_py_len contexts) as [[n|e] Hn].
  2:{ rewrite (bind_Raise _ _ _ _ _ (Hn st)) in H. injection H as <- <-.
      split; [reflexivity|]. destruct (py_len_raises _ _ Hn) as (Hexc & Hty).
      split; [exact Hexc|]. split; [contradiction|].
      intros (_ & _ & contexts' & Heq & Hy). rewrite Hctx in Heq. injection Heq as <-.
      specialize (Hy st). rewrite Hn in Hy. discriminate. }
  rewrite (bind_Ok _ _ _ _ _ (Hn st)) in H.
  destruct (py_truediv_cases k n st) as [(Hn0 & Hdiv)|(e & Hdiv)].
  - rewrite (bind_Ok _ _ _ _ _ Hdiv) in H. injection H as <- <-.
    split; [reflexivity|]. right. split; [reflexivity|].
    assert (Hkpos : (0 < k)%Z) by (now apply (truthy_len_pos irrelevancies)).
    assert (Hnpos : (0 < n)%Z) by (pose proof (py_len_nonneg contexts n Hn); lia).
    pose proof (ratio_pos k n Hkpos Hnpos) as Hratio.
    unfold py_max0.
    destruct (Qlt_le_dec 0 (Qred (1 - Qred (inject_Z k / inject_Z n)))) as [Hlt|Hle];
      [right | now left].
    eexists. split; [reflexivity|]. split; [exact Hlt|].
    rewrite !Qred_correct. lra.
  - pose proof Hdiv as Hdiv'. unfold py_truediv in Hdiv'.
    destruct (Z.eqb_spec n 0) as [->|Hn0]; [|discriminate].
    injection Hdiv' as He. rewrite (bind_Raise _ _ _ _ _ Hdiv) in H.
    injection H as <- <-. subst e.
    split; [reflexivity|]. split; [reflexivity|]. split; [|reflexivity].
    intros _. split; [reflexivity|]. split; [now exists k|]. now exists contexts.
Qed.

(** X5. The score expression of lines 102-103 never touches the state.
    When it returns, the score is the float [1.0] if nothing was flagged,
    and otherwise the integer [0] or a float strictly between [0] and [1].
    When it raises, the exception is an instance of [Exception], and it is
    [ZeroDivisionError] exactly when something with a length was flagged
    and the strategy's [retrieval_contexts] has length zero. *)
Theorem relevancy_score_outcome metric irrelevancies st :
  snd (relevancy_score metric irrelevancies st) = st /\
  score_outcome metric irrelevancies st (fst (relevancy_score metric irrelevancies st)).
Proof.
  destruct (relevancy_score metric irrelevancies st) as [r st'] eqn:E.
  now apply relevancy_score_inv in E as (-> & Hout).
Qed.

(** X4, at an [AnswerRelevancy] whose [measure] sets [reason],
    [statements] and [verdicts] on the object. *)
Lemma measured_entry_witness :
  let metric := mkMetric 0 AnswerRelevancy_example in
  let st := Examples.empty_state in
  let st1 := snd (evaluate_dispatch metric st) in
  exists score d,
    trace st1 = trace st ++ [ECall 0 "measure" [] (Ok score)] /\
    results st1 = <["answer_relevancy" := VDict d]> (results st) /\
    assoc "score" d = Some score /\
    (forall f, In f ["reason"; "statements"] -> assoc f d = assoc f (heap st1 0)) /\
    (forall vs, assoc "verdicts" d = Some vs ->
                exists v, assoc "verdicts" (heap st1 0) = Some v /\ yields (dicts_of v) vs).
Proof.
  cbv zeta.
  apply (measured_entry (mkMetric 0 AnswerRelevancy_example) Examples.empty_state tt _
           AnswerRelevancy).
  - vm_compute. reflexivity.
  - reflexivity.
  - vm_compute. reflexivity.
Defined.

(** ** The [GEval] branch *)

(** X6. When the [GEval] branch completes, [g_eval] was called once and the
    [geval] entry is the very value it returned, whatever its shape: the
    orchestrator adds no field of its own. *)
Theorem geval_entry_is_result metric st u st1 :
  recognized metric = Some GEval ->
  evaluate_dispatch metric st = (Ok u, st1) ->
  exists v,
    trace st1 = trace st ++ [ECall (m_id metric) "g_eval" [] (Ok v)] /\
    results st1 = <["geval" := v]> (results st).
Proof.
  unfold recognized, evaluate_dispatch. cbn [List.find dispatch_chain].
  down_the_chain metric
    ltac:(intros [= ] Hrun; measured_branch Hrun; eexists; split; reflexivity).
  discriminate.
Qed.

(** X6, at a [GEval] whose [g_eval] returns the number [8]. *)
Lemma geval_entry_is_result_witness :
  let metric := mkMetric 0 GEval_example in
  let st1 := snd (evaluate_dispatch metric Examples.empty_state) in
  exists v,
    trace st1 = trace Examples.empty_state ++ [ECall 0 "g_eval" [] (Ok v)] /\
    results st1 = <["geval" := v]> (results Examples.empty_state).
Proof.
  cbv zeta.
  apply (geval_entry_is_result (mkMetric 0 GEval_example) Examples.empty_state tt).
  - vm_compute. reflexivity.
  - vm_compute. reflexivity.
Defined.

(** ** An empty context list *)

(** X7. A [ContextualRelevancy] strategy with an empty context list whose
    classification flags something: the score cannot be computed (the
    quotient has divisor zero), so the branch raises, the rationale is
    never requested and the report is left as it was. *)
Theorem empty_contexts_no_rationale metric st irrelevancies query_args evs :
  recognized metric = Some ContextualRelevancy ->
  keeps_contexts (m_class metric) ->
  assoc "retrieval_contexts" (heap st (m_id metric)) = Some (VList []) ->
  trace (snd (evaluate_dispatch metric st)) = trace st ++ evs ->
  In (ECall (m_id metric) "get_irrelevancies" query_args (Ok irrelevancies)) evs ->
  py_not irrelevancies = false ->
  (exists e, fst (evaluate_dispatch metric st) = Raise e) /\
  (forall args res, ~ In (ECall (m_id metric) "get_reason" args res) evs) /\
  results (snd (evaluate_dispatch metric st)) = results st.
Proof.
  intros Hrec Hkeep Hctx Htrace Hirr Hnot.
  destruct (contextual_relevancy_branch metric st (VList []) Hrec Hkeep Hctx)
    as [(Hraise & evs' & Ht & Hnone)|Hreq].
  - rewrite Htrace in Ht. apply app_inv_head in Ht as <-.
    split; [exact Hraise|]. split; [exact Hnone|].
    destruct Hraise as (e & He).
    pose proof (dispatch_results metric st) as Hres.
    rewrite Hrec, He in Hres. exact Hres.
  - destruct Hreq as (q & irrelevancies' & r_set & q' & verdicts & score & r_reason &
                      Ht & Hscore & _).
    rewrite Htrace in Ht. apply app_inv_head in Ht as ->.
    among_four Hirr. injection Hirr as _ ->.
    unfold score_of in Hscore. rewrite Hnot in Hscore.
    destruct Hscore as (k & n & _ & Hlen & Hn0 & _).
    apply yields_py_len_list in Hlen. now subst n.
Qed.

(** X7, at the strategy that flags ["b"], given no context. *)
Lemma empty_contexts_no_rationale_witness :
  let metric := mkMetric 0 Examples.ContextualRelevancy_class in
  let st := no_contexts_state in
  let evs := trace (snd (evaluate_dispatch metric st)) in
  (exists e, fst (evaluate_dispatch metric st) = Raise e) /\
  (forall args res, ~ In (ECall 0 "get_reason" args res) evs) /\
  results (snd (evaluate_dispatch metric st)) = results st.
Proof.
  cbv zeta.
  apply (empty_contexts_no_rationale (mkMetric 0 Examples.ContextualRelevancy_class)
           no_contexts_state (VList [VStr "b"]) [VStr "Q"; VList []]).
  - vm_compute. reflexivity.
  - exact ContextualRelevancy_keeps_contexts.
  - reflexivity.
  - reflexivity.
  - vm_compute. auto 10.
  - reflexivity.
Defined.
